(** * A shallow embedding of [crawler.py]

    The crawler reads a set of seed pages, collects the story links of each
    page, extracts title and text of every story not yet recorded, and appends
    one line per story to a ledger file shared between crawler instances.

    Python [str] values are modelled as [string]; a character is a code point
    below 256 (the Latin-1 range), which is what [ascii] can hold.  Python
    [set]s of strings are [gset string], a directory is a finite map from file
    names to directory entries. *)

From Stdlib Require Import Ascii String.
From stdpp Require Import base option list strings gmap.

Local Open Scope stdpp_scope.

(** ** Python string primitives *)

Module Py.

Definition chr_eqb (a b : ascii) : bool := Ascii.eqb a b.

(** [str.isspace] on one character (code points below 256). *)
Definition isspace (c : ascii) : bool :=
  let n := nat_of_ascii c in
  ((9 <=? n) && (n <=? 13)) || ((28 <=? n) && (n <=? 32))
  || (n =? 133) || (n =? 160).

(** [str.lower] on one character: [A-Z], and the Latin-1 capitals
    [0xC0-0xDE] except the multiplication sign [0xD7]. *)
Definition lower_chr (c : ascii) : ascii :=
  let n := nat_of_ascii c in
  if ((65 <=? n) && (n <=? 90))
     || ((192 <=? n) && (n <=? 222) && negb (n =? 215))
  then ascii_of_nat (n + 32) else c.

Fixpoint lower (s : string) : string :=
  match s with
  | EmptyString => EmptyString
  | String c s' => String (lower_chr c) (lower s')
  end.

Fixpoint lstrip (s : string) : string :=
  match s with
  | EmptyString => EmptyString
  | String c s' => if isspace c then lstrip s' else s
  end.

Fixpoint rstrip (s : string) : string :=
  match s with
  | EmptyString => EmptyString
  | String c s' =>
      match rstrip s' with
      | EmptyString => if isspace c then EmptyString else String c EmptyString
      | r => String c r
      end
  end.

(** [s.strip()] *)
Definition strip (s : string) : string := rstrip (lstrip s).

(** [s.split(sep)] for a separator of one character. *)
Fixpoint split (sep : ascii) (s : string) : list string :=
  match s with
  | EmptyString => [EmptyString]
  | String c s' =>
      if chr_eqb c sep then EmptyString :: split sep s'
      else match split sep s' with
           | [] => [String c EmptyString]
           | h :: t => String c h :: t
           end
  end.

(** [s.replace(c, "")] for a pattern of one character. *)
Fixpoint remove_chr (c : ascii) (s : string) : string :=
  match s with
  | EmptyString => EmptyString
  | String a s' => if chr_eqb a c then remove_chr c s' else String a (remove_chr c s')
  end.

Fixpoint startswith (p s : string) : bool :=
  match p, s with
  | EmptyString, _ => true
  | String a p', String b s' => chr_eqb a b && startswith p' s'
  | String _ _, EmptyString => false
  end.

(** [sub in s] *)
Fixpoint contains (sub s : string) : bool :=
  startswith sub s ||
  match s with
  | EmptyString => false
  | String _ s' => contains sub s'
  end.

(** [c in s] for one character. *)
Fixpoint has_chr (c : ascii) (s : string) : bool :=
  match s with
  | EmptyString => false
  | String a s' => chr_eqb a c || has_chr c s'
  end.

(** Number of occurrences of a character. *)
Fixpoint count_chr (c : ascii) (s : string) : nat :=
  match s with
  | EmptyString => 0
  | String a s' => (if chr_eqb a c then 1 else 0) + count_chr c s'
  end.

(** Universal newlines, as applied by [open(path, "r")]: a carriage return,
    alone or followed by a line feed, is read as one line feed. *)
Fixpoint universal_newlines (s : string) : string :=
  match s with
  | EmptyString => EmptyString
  | String c s' =>
      if chr_eqb c "013"%char then
        match s' with
        | String d s'' =>
            if chr_eqb d "010"%char then String "010"%char (universal_newlines s'')
            else String "010"%char (universal_newlines s')
        | EmptyString => String "010"%char EmptyString
        end
      else String c (universal_newlines s')
  end.

(** [file.readlines()] on text already read: every line keeps its line
    feed, the last line may lack one. *)
Fixpoint readlines (s : string) : list string :=
  match s with
  | EmptyString => []
  | String c s' =>
      if chr_eqb c "010"%char then String c EmptyString :: readlines s'
      else match readlines s' with
           | [] => [String c EmptyString]
           | l :: ls => String c l :: ls
           end
  end.

(** [str(x)] for a value that is a string or [None]. *)
Definition str_of (o : option string) : string :=
  match o with
  | Some s => s
  | None => "None"
  end.

End Py.

(** ** The ledger directory *)

(** What [os.listdir] finds under a name.  A regular file is readable with a
    text, or [open]/[readlines] raises on it ([None]). *)
Inductive dirent :=
| RegularFile (content : option string)
| NotRegular.

Abbreviation directory := (gmap string dirent).

Definition SEP : ascii := "^"%char.

(** The loop of [urls_crawled_in_file] over the stripped lines.  The first
    line that does not split into 8 values raises; the handler around the loop
    swallows the exception, and the function returns the set as it stands. *)
Fixpoint scan_lines (lines : list string) (urls_crawled : gset string) : gset string :=
  match lines with
  | [] => urls_crawled
  | line :: rest =>
      let values := Py.split SEP line in
      if negb (length values =? 8) then urls_crawled
      else
        let twitter_id := nth 4 values EmptyString in
        scan_lines rest (urls_crawled ∪ {[ twitter_id ]})
  end.

(** The lines of a file as the loop sees them. *)
Definition stripped_lines (content : string) : list string :=
  map Py.strip (Py.readlines (Py.universal_newlines content)).

Definition urls_crawled_in_file (d : directory) (file : string) : gset string :=
  match d !! file with
  | Some (RegularFile (Some content)) => scan_lines (stripped_lines content) ∅
  | Some (RegularFile None) => ∅
  | Some NotRegular | None => ∅
  end.

Definition is_regular (e : dirent) : bool :=
  match e with
  | RegularFile _ => true
  | NotRegular => false
  end.

Definition urls_crawled_in_dir (d : directory) : gset string :=
  let files := (map_to_list (filter (λ kv, is_regular kv.2 = true) d)).*1 in
  foldl (λ urls_crawled file, urls_crawled ∪ urls_crawled_in_file d file) ∅ files.

(** ** Regular expressions: the fragment of Python's [re] the crawler meets

    [get_links] builds one of its two patterns by pasting a piece of the seed
    URL into a pattern text, so the pattern text itself has to be parsed.
    The parser follows [sre_parse]: alternation, capturing groups, character
    sets, the quantifiers [* + ? {m,n}] (greedy or lazy), [.], [^], [$] and
    the escapes for classes and literal characters.  Syntax outside this
    fragment (group extensions [(?...)], back references, [\b], numeric
    escapes, possessive quantifiers) is reported as [Beyond]. *)

Module Re.

Inductive category := Word | Digit | Space.

Inductive citem :=
| CChr (c : ascii)
| CRange (lo hi : ascii)
| CCat (cat : category) (negated : bool).

Inductive regex :=
| REmpty
| RLit (c : ascii)
| RAny
| RSet (negate : bool) (items : list citem)
| RBol
| REol
| RSeq (a b : regex)
| RAlt (a b : regex)
| RRep (lo : nat) (hi : option nat) (greedy : bool) (a : regex)
| RGroup (n : nat) (a : regex).

(** *** Character predicates of [sre] for [str] patterns *)

Definition between (lo hi n : nat) : bool := (lo <=? n) && (n <=? hi).

(** [\w]: alphanumeric in the sense of [str.isalnum], or the underscore. *)
Definition isword (c : ascii) : bool :=
  let n := nat_of_ascii c in
  between 48 57 n || between 65 90 n || (n =? 95) || between 97 122 n
  || (n =? 170) || (n =? 178) || (n =? 179) || (n =? 181) || (n =? 185)
  || (n =? 186) || between 188 190 n
  || between 192 214 n || between 216 246 n || between 248 255 n.

Definition isdigit (c : ascii) : bool := between 48 57 (nat_of_ascii c).

Definition in_category (cat : category) (c : ascii) : bool :=
  match cat with
  | Word => isword c
  | Digit => isdigit c
  | Space => Py.isspace c
  end.

Definition citem_matches (i : citem) (c : ascii) : bool :=
  match i with
  | CChr a => Py.chr_eqb a c
  | CRange lo hi => between (nat_of_ascii lo) (nat_of_ascii hi) (nat_of_ascii c)
  | CCat cat negated => xorb negated (in_category cat c)
  end.

Definition set_matches (negate : bool) (items : list citem) (c : ascii) : bool :=
  xorb negate (existsb (λ i, citem_matches i c) items).

(** *** Parsing *)

Inductive parsed (A : Type) :=
| Parsed (a : A)
| Error            (* [re.error] *)
| Beyond.          (* syntax outside the modelled fragment *)
Arguments Parsed {A} a.
Arguments Error {A}.
Arguments Beyond {A}.

#[global] Instance parsed_bind : MBind parsed := λ A B f x,
  match x with
  | Parsed a => f a
  | Error => Error
  | Beyond => Beyond
  end.

Definition is_ascii_letter (c : ascii) : bool :=
  let n := nat_of_ascii c in between 65 90 n || between 97 122 n.

Definition digit_value (c : ascii) : option nat :=
  let n := nat_of_ascii c in
  if between 48 57 n then Some (n - 48) else None.

(** The digits at the head of a text, and what follows them. *)
Fixpoint take_digits (s : string) : list nat * string :=
  match s with
  | String c s' =>
      match digit_value c with
      | Some d => let '(ds, rest) := take_digits s' in (d :: ds, rest)
      | None => ([], s)
      end
  | EmptyString => ([], s)
  end.

Definition number_of (ds : list nat) : nat :=
  foldl (λ acc d, 10 * acc + d) 0 ds.

(** [_escape]: the character after a backslash, outside a set. *)
Definition escape (c : ascii) : parsed regex :=
  let n := nat_of_ascii c in
  if Py.chr_eqb c "d" then Parsed (RSet false [CCat Digit false])
  else if Py.chr_eqb c "D" then Parsed (RSet false [CCat Digit true])
  else if Py.chr_eqb c "s" then Parsed (RSet false [CCat Space false])
  else if Py.chr_eqb c "S" then Parsed (RSet false [CCat Space true])
  else if Py.chr_eqb c "w" then Parsed (RSet false [CCat Word false])
  else if Py.chr_eqb c "W" then Parsed (RSet false [CCat Word true])
  else if Py.chr_eqb c "A" || Py.chr_eqb c "b" || Py.chr_eqb c "B" || Py.chr_eqb c "Z"
  then Beyond
  else if Py.chr_eqb c "a" then Parsed (RLit "007")
  else if Py.chr_eqb c "f" then Parsed (RLit "012")
  else if Py.chr_eqb c "n" then Parsed (RLit "010")
  else if Py.chr_eqb c "r" then Parsed (RLit "013")
  else if Py.chr_eqb c "t" then Parsed (RLit "009")
  else if Py.chr_eqb c "v" then Parsed (RLit "011")
  else if Py.chr_eqb c "x" || Py.chr_eqb c "u" || Py.chr_eqb c "U" || Py.chr_eqb c "N"
  then Beyond
  else if between 48 57 n then Beyond
  else if is_ascii_letter c then Error
  else Parsed (RLit c).

(** [_class_escape]: the character after a backslash, inside a set. *)
Definition class_escape (c : ascii) : parsed citem :=
  let n := nat_of_ascii c in
  if Py.chr_eqb c "a" then Parsed (CChr "007")
  else if Py.chr_eqb c "b" then Parsed (CChr "008")
  else if Py.chr_eqb c "f" then Parsed (CChr "012")
  else if Py.chr_eqb c "n" then Parsed (CChr "010")
  else if Py.chr_eqb c "r" then Parsed (CChr "013")
  else if Py.chr_eqb c "t" then Parsed (CChr "009")
  else if Py.chr_eqb c "v" then Parsed (CChr "011")
  else if Py.chr_eqb c "d" then Parsed (CCat Digit false)
  else if Py.chr_eqb c "D" then Parsed (CCat Digit true)
  else if Py.chr_eqb c "s" then Parsed (CCat Space false)
  else if Py.chr_eqb c "S" then Parsed (CCat Space true)
  else if Py.chr_eqb c "w" then Parsed (CCat Word false)
  else if Py.chr_eqb c "W" then Parsed (CCat Word true)
  else if Py.chr_eqb c "x" || Py.chr_eqb c "u" || Py.chr_eqb c "U" || Py.chr_eqb c "N"
  then Beyond
  else if between 48 55 n then Beyond
  else if between 56 57 n then Error
  else if is_ascii_letter c then Error
  else Parsed (CChr c).

(** One member of a set: a character or an escape. *)
Definition class_atom (s : string) : parsed (citem * string) :=
  match s with
  | EmptyString => Error
  | String c s' =>
      if Py.chr_eqb c "\" then
        match s' with
        | EmptyString => Error
        | String e s'' => i ← class_escape e ; Parsed (i, s'')
        end
      else Parsed (CChr c, s')
  end.

(** The body of a set, after [[] and the optional [^]; returns the members
    and the text after the closing bracket. *)
Fixpoint class_body (fuel : nat) (s : string) (set : list citem) : parsed (list citem * string) :=
  match fuel with
  | O => Error
  | S fuel' =>
      match s with
      | EmptyString => Error
      | String c s' =>
          if Py.chr_eqb c "]" && negb (length set =? 0) then Parsed (set, s')
          else
            '(code1, s1) ← class_atom s ;
            match s1 with
            | String d s2 =>
                if Py.chr_eqb d "-" then
                  match s2 with
                  | EmptyString => Error
                  | String e s3 =>
                      if Py.chr_eqb e "]" then Parsed (set ++ [code1; CChr "-"], s3)
                      else
                        '(code2, s4) ← class_atom s2 ;
                        match code1, code2 with
                        | CChr lo, CChr hi =>
                            if nat_of_ascii hi <? nat_of_ascii lo then Error
                            else class_body fuel' s4 (set ++ [CRange lo hi])
                        | _, _ => Error
                        end
                  end
                else class_body fuel' s1 (set ++ [code1])
            | EmptyString => class_body fuel' s1 (set ++ [code1])
            end
      end
  end.

Definition parse_set (s : string) : parsed (regex * string) :=
  let '(negate, s') :=
    match s with
    | String c s' => if Py.chr_eqb c "^" then (true, s') else (false, s)
    | EmptyString => (false, s)
    end in
  '(items, rest) ← class_body (S (String.length s')) s' [] ;
  Parsed (RSet negate items, rest).

(** What a quantifier character announces. *)
Inductive quantifier :=
| Bounds (lo : nat) (hi : option nat) (rest : string)
| LiteralBrace.

(** The text after [{]: bounds [m}], [m,}], [,n}], [m,n}], or a brace that
    stands for itself. *)
Definition parse_braces (s : string) : parsed quantifier :=
  match s with
  | String c _ =>
      if Py.chr_eqb c "}" then Parsed LiteralBrace
      else
        let '(lo, s1) := take_digits s in
        let '(has_comma, (hi, s2)) :=
          match s1 with
          | String d s1' =>
              if Py.chr_eqb d "," then (true, take_digits s1') else (false, (lo, s1))
          | EmptyString => (false, (lo, s1))
          end in
        match s2 with
        | String d rest =>
            if Py.chr_eqb d "}" then
              if (9 <? length lo) || (9 <? length hi) then Beyond
              else
                let min := number_of lo in
                let max := if length hi =? 0 then None else Some (number_of hi) in
                match max with
                | Some m => if m <? min then Error else Parsed (Bounds min max rest)
                | None => Parsed (Bounds min max rest)
                end
            else Parsed LiteralBrace
        | EmptyString => Parsed LiteralBrace
        end
  | EmptyString => Parsed LiteralBrace
  end.

Definition is_repeat (r : regex) : bool :=
  match r with
  | RRep _ _ _ _ => true
  | _ => false
  end.

Definition is_at (r : regex) : bool :=
  match r with
  | RBol | REol => true
  | _ => false
  end.

(** Apply a quantifier to the last item parsed; [rest] starts after the
    quantifier.  A following [?] makes it lazy. *)
Definition repeat_last (items : list regex) (lo : nat) (hi : option nat) (rest : string)
  : parsed (list regex * string) :=
  match items with
  | [] => Error                                   (* nothing to repeat *)
  | item :: before =>
      if is_at item then Error                    (* nothing to repeat *)
      else if is_repeat item then Error         (* multiple repeat *)
      else
        match rest with
        | String c rest' =>
            if Py.chr_eqb c "?" then Parsed (RRep lo hi false item :: before, rest')
            else if Py.chr_eqb c "+" then Beyond  (* possessive, or an error before 3.11 *)
            else Parsed (RRep lo hi true item :: before, rest)
        | EmptyString => Parsed (RRep lo hi true item :: before, rest)
        end
  end.

(** The items parsed, last item first, put in sequence. *)
Definition seq_step (acc r : regex) : regex :=
  match acc with
  | REmpty => r
  | _ => RSeq r acc
  end.

Definition sequence (items : list regex) : regex := foldl seq_step REmpty items.

(** [_parse] and [_parse_sub].  [items] holds the sequence parsed so far,
    last item first; [ng] counts the groups opened so far. *)
Fixpoint parse_items (fuel : nat) (ng : nat) (s : string) (items : list regex)
  : parsed (regex * nat * string) :=
  match fuel with
  | O => Beyond
  | S fuel' =>
      match s with
      | EmptyString => Parsed (sequence items, ng, s)
      | String c s' =>
          if Py.chr_eqb c "|" || Py.chr_eqb c ")" then Parsed (sequence items, ng, s)
          else if Py.chr_eqb c "\" then
            match s' with
            | EmptyString => Error
            | String e s'' => r ← escape e ; parse_items fuel' ng s'' (r :: items)
            end
          else if Py.chr_eqb c "[" then
            '(r, rest) ← parse_set s' ; parse_items fuel' ng rest (r :: items)
          else if Py.chr_eqb c "?" then
            '(items', rest) ← repeat_last items 0 (Some 1) s' ; parse_items fuel' ng rest items'
          else if Py.chr_eqb c "*" then
            '(items', rest) ← repeat_last items 0 None s' ; parse_items fuel' ng rest items'
          else if Py.chr_eqb c "+" then
            '(items', rest) ← repeat_last items 1 None s' ; parse_items fuel' ng rest items'
          else if Py.chr_eqb c "{" then
            q ← parse_braces s' ;
            match q with
            | LiteralBrace => parse_items fuel' ng s' (RLit c :: items)
            | Bounds lo hi rest =>
                '(items', rest') ← repeat_last items lo hi rest ;
                parse_items fuel' ng rest' items'
            end
          else if Py.chr_eqb c "." then parse_items fuel' ng s' (RAny :: items)
          else if Py.chr_eqb c "^" then parse_items fuel' ng s' (RBol :: items)
          else if Py.chr_eqb c "$" then parse_items fuel' ng s' (REol :: items)
          else if Py.chr_eqb c "(" then
            if Py.startswith "?" s' then Beyond
            else
              '(r, ng', rest) ← parse_sub fuel' (S ng) s' ;
              match rest with
              | String d rest' =>
                  if Py.chr_eqb d ")" then parse_items fuel' ng' rest' (RGroup (S ng) r :: items)
                  else Error
              | EmptyString => Error            (* missing ) *)
              end
          else parse_items fuel' ng s' (RLit c :: items)
      end
  end
with parse_sub (fuel : nat) (ng : nat) (s : string) : parsed (regex * nat * string) :=
  match fuel with
  | O => Beyond
  | S fuel' =>
      '(r, ng', rest) ← parse_items fuel' ng s [] ;
      match rest with
      | String c rest' =>
          if Py.chr_eqb c "|" then
            '(r2, ng'', rest'') ← parse_sub fuel' ng' rest' ;
            Parsed (RAlt r r2, ng'', rest'')
          else Parsed (r, ng', rest)
      | EmptyString => Parsed (r, ng', rest)
      end
  end.

(** [sre_parse.parse]: the whole text must be consumed. *)
Definition parse (source : string) : parsed regex :=
  '(r, _, rest) ← parse_sub (2 * String.length source + 4) 0 source ;
  match rest with
  | EmptyString => Parsed r
  | String _ _ => Error                          (* unbalanced parenthesis *)
  end.

(** *** Matching

    A backtracking matcher in continuation-passing style.  A matcher gets
    the position reached, the text from there on, and the groups closed so
    far; it hands the same to its continuation, and answers with the first
    success in the order [sre] explores. *)

Abbreviation groups := (gmap nat (nat * nat)).
Definition answer : Type := nat * groups.
Definition cont : Type := nat → string → groups → option answer.
Definition matcher : Type := nat → string → groups → cont → option answer.

Definition first_of (x y : option answer) : option answer :=
  match x with
  | Some a => Some a
  | None => y
  end.

Definition one_chr (ok : ascii → bool) : matcher := λ pos s g k,
  match s with
  | String c s' => if ok c then k (S pos) s' g else None
  | EmptyString => None
  end.

Definition allows_more (count : nat) (hi : option nat) : bool :=
  match hi with
  | None => true
  | Some h => count <? h
  end.

Definition same_ptr (last_ptr : option nat) (pos : nat) : bool :=
  match last_ptr with
  | Some p => p =? pos
  | None => false
  end.

(** The repeat loop ([MAX_UNTIL] and [MIN_UNTIL]): below [lo] the body must
    match; from [lo] on, another round is tried while [hi] allows it and
    the previous round has moved the position. *)
Fixpoint until (body : matcher) (greedy : bool) (lo : nat) (hi : option nat)
    (fuel count : nat) (last_ptr : option nat) : matcher := λ pos s g k,
  match fuel with
  | O => None
  | S fuel' =>
      if count <? lo then
        body pos s g (λ pos' s' g', until body greedy lo hi fuel' (S count) last_ptr pos' s' g' k)
      else
        let more (_ : unit) :=
          if allows_more count hi && negb (same_ptr last_ptr pos)
          then body pos s g (λ pos' s' g', until body greedy lo hi fuel' (S count) (Some pos) pos' s' g' k)
          else None in
        if greedy then first_of (more ()) (k pos s g)
        else first_of (k pos s g) (more ())
  end.

Fixpoint run (r : regex) : matcher := λ pos s g k,
  match r with
  | REmpty => k pos s g
  | RLit c => one_chr (Py.chr_eqb c) pos s g k
  | RAny => one_chr (λ a, negb (Py.chr_eqb a "010")) pos s g k
  | RSet negate items => one_chr (set_matches negate items) pos s g k
  | RBol => if pos =? 0 then k pos s g else None
  | REol =>
      match s with
      | EmptyString => k pos s g
      | String c EmptyString => if Py.chr_eqb c "010" then k pos s g else None
      | _ => None
      end
  | RSeq a b => run a pos s g (λ pos' s' g', run b pos' s' g' k)
  | RAlt a b => first_of (run a pos s g k) (run b pos s g k)
  | RRep lo hi greedy a =>
      until (run a) greedy lo hi (lo + String.length s + 3) 0 None pos s g k
  | RGroup n a => run a pos s g (λ pos' s' g', k pos' s' (<[n := (pos, pos')]> g'))
  end.

Definition accept : cont := λ pos _ g, Some (pos, g).

(** A match object: the text searched and the spans of the groups. *)
Record match_object := { subject : string; spans : groups }.

(** [m.group(n)] *)
Definition group (n : nat) (m : match_object) : option string :=
  '(start, stop) ← spans m !! n;
  Some (String.substring start (stop - start) (subject m)).

(** [pattern.match(text)]: a match starting at position 0. *)
Definition match_ (r : regex) (text : string) : option match_object :=
  '(stop, g) ← run r 0 text ∅ accept;
  Some {| subject := text; spans := <[0 := (0, stop)]> g |}.

Fixpoint search_from (r : regex) (pos : nat) (s : string) : option (nat * answer) :=
  match run r pos s ∅ accept with
  | Some a => Some (pos, a)
  | None =>
      match s with
      | String _ s' => search_from r (S pos) s'
      | EmptyString => None
      end
  end.

(** [pattern.search(text)]: the first position where a match starts. *)
Definition search (r : regex) (text : string) : option match_object :=
  '(start, (stop, g)) ← search_from r 0 text;
  Some {| subject := text; spans := <[0 := (start, stop)]> g |}.

End Re.

(** ** Parsed pages

    [BeautifulSoup(content, 'html.parser')] yields a tree of tags and text
    nodes; the tree is the input here, the HTML parser itself is not
    modelled. *)

Module Html.

#[warnings="-register-all"]
Inductive node :=
| Text (s : string)
| Tag (name : string) (attrs : list (string * string)) (children : list node).

(** The nodes below a node, in document order. *)
Fixpoint descendants (n : node) : list node :=
  match n with
  | Text _ => []
  | Tag _ _ children =>
      (fix each (l : list node) : list node :=
         match l with
         | [] => []
         | c :: l' => c :: descendants c ++ each l'
         end) children
  end.

Definition is_tag (name : string) (n : node) : bool :=
  match n with
  | Tag nm _ _ => String.eqb nm name
  | Text _ => false
  end.

(** [tag.find_all(name)] *)
Definition find_all (name : string) (n : node) : list node :=
  List.filter (is_tag name) (descendants n).

(** [tag.find(name)], also written [tag.name]: [None] when there is none. *)
Definition find (name : string) (n : node) : option node :=
  head (find_all name n).

(** [tag.string]: the text of a tag whose only child is a text, or a tag
    with such a [.string]. *)
Fixpoint string_of (n : node) : option string :=
  match n with
  | Text s => Some s
  | Tag _ _ [c] => string_of c
  | Tag _ _ _ => None
  end.

Fixpoint assoc (key : string) (l : list (string * string)) : option string :=
  match l with
  | [] => None
  | (k, v) :: l' => if String.eqb k key then Some v else assoc key l'
  end.

(** [tag.get(attr)] *)
Definition get (attr : string) (n : node) : option string :=
  match n with
  | Tag _ attrs _ => assoc attr attrs
  | Text _ => None
  end.

End Html.

(** [requests.get(url)], [raise_for_status()] and the HTML parser in one:
    the tree of the page, or [None] when any of them raises. *)
Abbreviation web := (string → option Html.node).

(** ** Content extraction: [crawl] *)

Record result := { url : string; title : option string; body : string }.

Definition NL : string := String "010" EmptyString.

(** [body.find_all(name, text=True)]: the tags of that name with a [.string]. *)
Definition find_all_text (name : string) (n : Html.node) : list Html.node :=
  List.filter (λ p, bool_decide (is_Some (Html.string_of p))) (Html.find_all name n).

(** One of the two loops of [crawl]: [text = text + p.string.strip() + " "]. *)
Definition add_paragraphs (paragraphs : list Html.node) (text : string) : string :=
  foldl (λ text p, text +:+ Py.strip (default "" (Html.string_of p)) +:+ " ") text paragraphs.

Definition crawl (w : web) (link : string) : option result :=
  soup ← w link;
  title_tag ← Html.find "title" soup;         (* [soup.title.string] raises on [None] *)
  let title := Html.string_of title_tag in
  body ← Html.find "body" soup;               (* [body.find_all] raises on [None] *)
  let text := "" in
  let text := add_paragraphs (find_all_text "p" body) text in
  let text := add_paragraphs (find_all_text "span" body) text in
  let text := Py.remove_chr SEP text in
  Some {| url := link; title := title; body := text |}.

(** ** Link discovery: [get_links] *)

Definition PUBLISHER_PATTERN : string := "^(http|https)://(.*)\..{2,20}.*$".

(** What [PUBLISHER_PATTERN] parses to: the scheme as group 1, then as
    group 2 as many characters as leave room for a dot, 2 to 20 characters and
    the rest of the line. *)
Definition PUBLISHER_TAIL : Re.regex :=
  Re.RSeq (Re.RLit ".")
    (Re.RSeq (Re.RRep 2 (Some 20) true Re.RAny)
       (Re.RSeq (Re.RRep 0 None true Re.RAny) Re.REol)).

(** The scheme, as both patterns begin: [^(http|https)://] and the rest. *)
Definition SCHEME : Re.regex :=
  Re.RGroup 1
    (Re.RAlt
       (Re.RSeq (Re.RLit "h") (Re.RSeq (Re.RLit "t") (Re.RSeq (Re.RLit "t") (Re.RLit "p"))))
       (Re.RSeq (Re.RLit "h")
          (Re.RSeq (Re.RLit "t")
             (Re.RSeq (Re.RLit "t") (Re.RSeq (Re.RLit "p") (Re.RLit "s")))))).

Definition with_scheme (rest : Re.regex) : Re.regex :=
  Re.RSeq Re.RBol
    (Re.RSeq SCHEME
       (Re.RSeq (Re.RLit ":") (Re.RSeq (Re.RLit "/") (Re.RSeq (Re.RLit "/") rest)))).

Definition PUBLISHER_REGEX : Re.regex :=
  with_scheme (Re.RSeq (Re.RGroup 2 (Re.RRep 0 None true Re.RAny)) PUBLISHER_TAIL).

(** What the end of the story pattern, [[\.\w\-]*/.+/?$], parses to. *)
Definition STORY_TAIL : Re.regex :=
  Re.RSeq (Re.RRep 0 None true
             (Re.RSet false [Re.CChr "."; Re.CCat Re.Word false; Re.CChr "-"]))
    (Re.RSeq (Re.RLit "/")
       (Re.RSeq (Re.RRep 1 None true Re.RAny)
          (Re.RSeq (Re.RRep 0 (Some 1) true (Re.RLit "/")) Re.REol))).

(** The text handed to [re.compile]: the pattern with the token pasted in. *)
Definition story_pattern (last_publisher : string) : string :=
  "^(http|https)://.*" +:+ last_publisher +:+ "[\.\w\-]*/.+/?$".

(** What [re.compile(source)] does with a pattern outside the modelled
    fragment: it raises ([None]), or yields a pattern whose [match] accepts
    some links. *)
Abbreviation regex_oracle := (string → option (string → bool)).

(** [re.compile(source)], as the predicate [pattern.match(link)] being not
    [None]; [None] when it raises. *)
Definition compile (beyond : regex_oracle) (source : string) : option (string → bool) :=
  match Re.parse source with
  | Re.Parsed r => Some (λ link, bool_decide (is_Some (Re.match_ r link)))
  | Re.Error => None
  | Re.Beyond => beyond source
  end.

(** [re.search(PUBLISHER_PATTERN, url).group(2)] *)
Definition url_publisher (seed : string) : option string :=
  match Re.parse PUBLISHER_PATTERN with
  | Re.Parsed r => m ← Re.search r seed; Re.group 2 m
  | _ => None
  end.

(** The loops [for x in xs: if x in link: proceed = True]. *)
Definition any_in (xs : list string) (link : string) (proceed : bool) : bool :=
  foldl (λ proceed x, if Py.contains x link then true else proceed) proceed xs.

Definition has_href (a : Html.node) : bool := bool_decide (is_Some (Html.get "href" a)).

(** The body of the loop over the anchors. *)
Definition visit_anchor (pattern_story : string → bool) (publishers filter_list : list string)
    (links : list string) (a : Html.node) : list string :=
  let link := Py.lower (default "" (Html.get "href" a)) in
  if pattern_story link then
    let proceed := any_in publishers link false in
    if proceed then
      let proceed := if 0 <? length filter_list then any_in filter_list link false else proceed in
      if proceed then links ++ [link] else links
    else links
  else links.

(** The second half of [get_links]: fetch the seed page and walk through its
    anchors.  [None] stands for an exception. *)
Definition collect_links (w : web) (seed : string) (pattern_story : string → bool)
    (publishers filter_list : list string) : option (list string) :=
  soup ← w seed;
  body ← Html.find "body" soup;               (* [body.find_all] raises on [None] *)
  Some (foldl (visit_anchor pattern_story publishers filter_list) []
          (List.filter has_href (Html.find_all "a" body))).

(** Every exception is caught at the end of [get_links]; none can arise once
    the loop over the anchors has started, so a failure yields no link. *)
Definition get_links (beyond : regex_oracle) (w : web) (seed : string) (filter_list : list string)
  : list string :=
  default [] (
    url_publisher ← url_publisher seed;
    if String.eqb (Py.strip url_publisher) "" then Some []
    else
      let publishers := Py.split "." url_publisher in
      let publishers := map Py.lower publishers in
      let last_publisher := List.last publishers "" in
      pattern_story ← compile beyond (story_pattern last_publisher);
      collect_links w seed pattern_story publishers filter_list).

(** The token [get_links] pastes into its pattern, when it gets that far:
    the first lines of [get_links] on their own. *)
Definition publisher_token (seed : string) : option string :=
  url_publisher ← url_publisher seed;
  if String.eqb (Py.strip url_publisher) "" then None
  else Some (List.last (map Py.lower (Py.split "." url_publisher)) "").

(** ** The result writer: [save_result] *)

(** The line [save_result] writes, for the date the clock gave. *)
Definition ledger_line (date_of_tweet : string) (r : result) : string :=
  let location_long := "locationLong" in
  let location_lat := "locationLat" in
  let verbose_location := "spider" in
  let user_name := "userName" in
  let screen_name := "screenName" in
  let twitter_id := url r in
  let tweeted_text :=
    "<title>" +:+ Py.str_of (title r) +:+ "</title><body>" +:+ body r +:+ "</body>" in
  location_long +:+ "^" +:+ location_lat +:+ "^" +:+ verbose_location +:+ "^"
  +:+ date_of_tweet +:+ "^" +:+ twitter_id +:+ "^" +:+ user_name +:+ "^"
  +:+ screen_name +:+ "^" +:+ tweeted_text +:+ NL.

(** ** The process and its surroundings *)

Inductive flock_reply :=
| Granted        (* the lock is taken *)
| Busy           (* [IOError] with [EAGAIN]: another instance holds it *)
| Failed.        (* any other [IOError] *)

(** What the run cannot decide itself.  The clock is read once per line
    written; [flock_replies] are the answers to the successive non-blocking
    lock attempts, and a list of [Busy] answers that runs out stands for a
    lock that is never granted. *)
Record environment := {
  pages : web;
  clock : nat → string;
  flock_replies : list flock_reply;
  re_beyond : regex_oracle
}.

Inductive event :=
| EvOpen
| EvSleep
| EvLock
| EvWrite (text : string)
| EvUnlock
| EvClose.

(** The state a run changes: the files of the ledger directory, whether this
    process holds the lock on the output file, the room left on the device,
    the number of clock readings, and the system calls made so far. *)
Record world := {
  files : directory;
  locked : bool;
  disk_free : nat;
  ticks : nat;
  trace : list event
}.

Inductive exn :=
| OSError.

Inductive outcome (A : Type) :=
| Done (a : A)
| Raised (e : exn)
| Hang.
Arguments Done {A} a.
Arguments Raised {A} e.
Arguments Hang {A}.

(** State passing with exceptions. *)
Definition M (A : Type) : Type := world → outcome A * world.

#[global] Instance M_ret : MRet M := λ A a w, (Done a, w).

#[global] Instance M_bind : MBind M := λ A B f x w,
  match x w with
  | (Done a, w') => f a w'
  | (Raised e, w') => (Raised e, w')
  | (Hang, w') => (Hang, w')
  end.

Definition raise {A} (e : exn) : M A := λ w, (Raised e, w).

Definition log (e : event) : M unit := λ w,
  (Done (), {| files := files w; locked := locked w; disk_free := disk_free w;
               ticks := ticks w; trace := trace w ++ [e] |}).

Definition set_locked (b : bool) : M unit := λ w,
  (Done (), {| files := files w; locked := b; disk_free := disk_free w;
               ticks := ticks w; trace := trace w |}).

(** [open(file_path, "a")]: the file is created when absent; a name that
    is not a regular file, or a file that cannot be opened, raises. *)
Definition open_append (filename : string) : M unit := λ w,
  match files w !! filename with
  | None =>
      log EvOpen {| files := <[filename := RegularFile (Some "")]> (files w);
                    locked := locked w; disk_free := disk_free w;
                    ticks := ticks w; trace := trace w |}
  | Some (RegularFile (Some _)) => log EvOpen w
  | Some (RegularFile None) | Some NotRegular => (Raised OSError, w)
  end.

(** [file_handle.write(text)] in append mode; raises when the device is
    full. *)
Definition write (filename : string) (text : string) : M unit := λ w,
  if disk_free w <? String.length text then (Raised OSError, w)
  else
    let old := match files w !! filename with
               | Some (RegularFile (Some c)) => c
               | _ => ""
               end in
    log (EvWrite text)
      {| files := <[filename := RegularFile (Some (old +:+ text))]> (files w);
         locked := locked w; disk_free := disk_free w - String.length text;
         ticks := ticks w; trace := trace w |}.

(** Closing the file; [flock] locks go with the open file, so closing it
    gives up a lock still held. *)
Definition close_file : M unit := set_locked false ;; log EvClose.

(** [with open(file_path, "a") as file_output: body]: the file is closed
    when the body is left, by its end or by an exception. *)
Definition with_open {A} (filename : string) (body : M A) : M A := λ w,
  match open_append filename w with
  | (Done _, w1) =>
      match body w1 with
      | (Done a, w2) => (Done a, (close_file w2).2)
      | (Raised e, w2) => (Raised e, (close_file w2).2)
      | (Hang, w2) => (Hang, w2)
      end
  | (Raised e, w1) => (Raised e, w1)
  | (Hang, w1) => (Hang, w1)
  end.

(** The loop of [wait_and_lock_file] over the answers of [flock]. *)
Fixpoint wait_and_lock_file (replies : list flock_reply) : M unit :=
  match replies with
  | Granted :: _ => set_locked true ;; log EvLock
  | Failed :: _ => raise OSError
  | Busy :: later => log EvSleep ;; wait_and_lock_file later
  | [] => λ w, (Hang, w)
  end.

Definition unlock_file : M unit := set_locked false ;; log EvUnlock.

(** [current_date_for_timestamp()] *)
Definition current_date_for_timestamp (env : environment) : M string := λ w,
  (Done (clock env (ticks w)),
   {| files := files w; locked := locked w; disk_free := disk_free w;
      ticks := S (ticks w); trace := trace w |}).

Definition save_result (env : environment) (filename : string) (r : result) : M unit :=
  date_of_tweet ← current_date_for_timestamp env;
  write filename (ledger_line date_of_tweet r).

(** ** The orchestrator: the crawl loop of [main] *)

(** [for link in links: ...]; the set of crawled URLs is passed along. *)
Fixpoint link_loop (env : environment) (filename : string) (links : list string)
    (urls_crawled : gset string) : M (gset string) :=
  match links with
  | [] => mret urls_crawled
  | link :: rest =>
      if bool_decide (link ∈ urls_crawled) then link_loop env filename rest urls_crawled
      else
        match crawl (pages env) link with
        | Some r => save_result env filename r
        | None => mret ()
        end ;;
        link_loop env filename rest (urls_crawled ∪ {[ link ]})
  end.

(** [for url in urls_to_crawl: ...]; [urls_to_crawl] in the order the loop
    visits the set. *)
Fixpoint seed_loop (env : environment) (filename : string) (filter_list : list string)
    (urls_to_crawl : list string) (urls_crawled : gset string) : M (gset string) :=
  match urls_to_crawl with
  | [] => mret urls_crawled
  | seed :: rest =>
      if bool_decide (seed ∈ urls_crawled)
      then seed_loop env filename filter_list rest urls_crawled
      else
        let links := get_links (re_beyond env) (pages env) seed filter_list in
        urls_crawled ← link_loop env filename links urls_crawled;
        seed_loop env filename filter_list rest urls_crawled
  end.

(** [main] from the loading of the crawled URLs on; the arguments are what
    the command line and the seed store gave. *)
Definition crawl_run (env : environment) (filename : string) (filter_list : list string)
    (urls_to_crawl : list string) : M unit := λ w,
  let urls_crawled := urls_crawled_in_dir (files w) in
  with_open filename (
    wait_and_lock_file (flock_replies env) ;;
    seed_loop env filename filter_list urls_to_crawl urls_crawled ;;
    unlock_file) w.

(** A process at its start: no lock held, nothing done yet. *)
Definition boot (d : directory) (free : nat) : world :=
  {| files := d; locked := false; disk_free := free; ticks := 0; trace := [] |}.

(** ** Notions the properties are stated with *)

(** A line is well formed when it splits into 8 fields; its identity key is
    the 5th. *)
Definition well_formed (line : string) : bool := length (Py.split SEP line) =? 8.

Definition identity_key (line : string) : string := nth 4 (Py.split SEP line) "".

(** The lines before the first one that is not well formed. *)
Fixpoint leading_well_formed (lines : list string) : list string :=
  match lines with
  | [] => []
  | line :: rest => if well_formed line then line :: leading_well_formed rest else []
  end.

(** [line] is a line of a readable regular file of the directory. *)
Definition line_in_dir (d : directory) (line : string) : Prop :=
  ∃ file content,
    d !! file = Some (RegularFile (Some content)) ∧ line ∈ stripped_lines content.

(** [line] is a line of a readable regular file of the directory, with only
    well-formed lines before it in that file. *)
Definition leading_line_in_dir (d : directory) (line : string) : Prop :=
  ∃ file content,
    d !! file = Some (RegularFile (Some content))
    ∧ line ∈ leading_well_formed (stripped_lines content).

(** The identity keys of the lines of a ledger text, line by line. *)
Definition identity_keys (content : string) : list string :=
  map identity_key (stripped_lines content).

(** The text of a file of the directory. *)
Definition text_of (d : directory) (file : string) : string :=
  match d !! file with
  | Some (RegularFile (Some content)) => content
  | _ => ""
  end.

(** [sub] occurs in [s]. *)
Definition substring_of (sub s : string) : Prop := ∃ pre post, s = pre +:+ sub +:+ post.

(** What holds of a link the loop body appends. *)
Definition kept (pattern_story : string → bool) (publishers filter_list : list string)
    (a : Html.node) (link : string) : Prop :=
  link = Py.lower (default "" (Html.get "href" a))
  ∧ pattern_story link = true
  ∧ any_in publishers link false = true
  ∧ (filter_list ≠ [] → any_in filter_list link false = true).

(** The characters [sre_parse] gives a meaning to ([SPECIAL_CHARS]), and the
    texts made of other characters, which a pattern takes letter by letter. *)
Definition special (c : ascii) : bool := Py.has_chr c ".\[{()*+?^$|".

Fixpoint plain (s : string) : bool :=
  match s with
  | EmptyString => true
  | String c s' => negb (special c) && plain s'
  end.

(** The letters of a text as pattern items, last letter first. *)
Fixpoint literals (s : string) (items : list Re.regex) : list Re.regex :=
  match s with
  | EmptyString => items
  | String c s' => literals s' (Re.RLit c :: items)
  end.

(** The host component of an [http(s)://host/...] URL, and its last label. *)
Definition host_of (u : string) : string :=
  let rest :=
    if Py.startswith "http://" u then String.substring 7 (String.length u - 7) u
    else if Py.startswith "https://" u then String.substring 8 (String.length u - 8) u
    else u in
  hd "" (Py.split "/" rest).

Definition last_host_label (u : string) : string := List.last (Py.split "." (host_of u)) "".

(** ** Pages, directories and runs used as examples *)

Module Sample.

Definition page (head body : list Html.node) : Html.node :=
  Html.Tag "[document]" []
    [Html.Tag "html" [] [Html.Tag "head" [] head; Html.Tag "body" [] body]].

Definition anchor (href : string) : Html.node :=
  Html.Tag "a" [("href", href)] [Html.Text "read"].

Definition title_tag (text : string) : Html.node := Html.Tag "title" [] [Html.Text text].

Definition paragraph (text : string) : Html.node := Html.Tag "p" [] [Html.Text text].

Definition date : string := "Wed Nov 04 12:00:00 UTC 2026".

(** A front page with one story; the story's title holds the separator. *)
Definition seed : string := "http://news.example.com/".
Definition story : string := "http://news.example.com/story1".

Definition news_titled (story_title : string) : web := λ u,
  if String.eqb u seed then
    Some (page [title_tag "News"] [anchor "http://news.example.com/Story1"])
  else if String.eqb u story then
    Some (page [title_tag story_title] [paragraph "Hello"])
  else None.

Definition news : web := news_titled "Up ^ Down".

Definition env_of (w : web) (replies : list flock_reply) : environment :=
  {| pages := w; clock := λ _, date; flock_replies := replies; re_beyond := λ _, None |}.

Definition env (replies : list flock_reply) : environment := env_of news replies.

Definition out : string := "out.txt".

(** The world a first run leaves behind, starting from an empty directory,
    and the world a second run makes of that directory. *)
Definition after_run1 : world :=
  (crawl_run (env [Granted]) out [] [seed] (boot ∅ 1000)).2.

Definition after_run2 : world :=
  (crawl_run (env [Granted]) out [] [seed] (boot (files after_run1) 1000)).2.

(** A ledger whose first line is damaged and whose second line is sound. *)
Definition sound_line : string :=
  "locationLong^locationLat^spider^" +:+ date
  +:+ "^http://a/b^userName^screenName^<title>T</title><body>B </body>".

Definition damaged : directory :=
  {[ out := RegularFile (Some ("oops" +:+ NL +:+ sound_line +:+ NL)) ]}.

(** A page with a body and no title. *)
Definition untitled : web := λ u,
  if String.eqb u "http://a/b" then Some (page [] [paragraph "B"]) else None.

(** A page with a title and a body without text. *)
Definition bare : web := λ u,
  if String.eqb u "http://a/b" then Some (page [title_tag "T"] [Html.Tag "div" [] []]) else None.

(** A page with a title and one paragraph. *)
Definition titled : web := λ u,
  if String.eqb u "http://a/b" then Some (page [title_tag "T"] [paragraph "B"]) else None.

Definition record : result := {| url := "http://a/b"; title := Some "T"; body := "B" |}.

(** A seed whose path holds a [|], and a page with a relative link. *)
Definition piped_seed : string := "http://example.com/news|sports.html".

Definition piped : web := λ u,
  if String.eqb u piped_seed then Some (page [title_tag "All"] [anchor "sports/example"])
  else None.

(** A front page with two stories, for a crawl with a filter. *)
Definition two_stories : web := λ u,
  if String.eqb u seed then
    Some (page [title_tag "News"]
            [anchor "http://news.example.com/Politics/1";
             anchor "http://news.example.com/Sports/2"])
  else None.

End Sample.

(** ** Notions for the further properties *)

(** [main] turns the [--filter] argument into the filter list: no argument
    gives no filter, a text is cut at the commas and every piece stripped. *)
Definition parse_filters (filters : option string) : list string :=
  match filters with
  | None => []
  | Some text => map Py.strip (Py.split "," text)
  end.

(** The test the loop body of [get_links] applies to a lower-cased link. *)
Definition passes (pattern_story : string → bool) (publishers filter_list : list string)
    (link : string) : bool :=
  pattern_story link
  && any_in publishers link false
  && (if 0 <? length filter_list then any_in filter_list link false else true).

(** The lower-cased [href]s of the anchors of a body, in document order. *)
Definition hrefs (body : Html.node) : list string :=
  map (λ a, Py.lower (default "" (Html.get "href" a)))
    (List.filter has_href (Html.find_all "a" body)).

(** A text that can stand in a ledger line: no separator, no line feed and
    no carriage return. *)
Definition line_safe (s : string) : bool :=
  negb (Py.has_chr SEP s) && negb (Py.has_chr "010" s) && negb (Py.has_chr "013" s).

Definition clean (date : string) (r : result) : bool :=
  line_safe date && line_safe (url r) && line_safe (Py.str_of (title r)) && line_safe (body r).

(** The line [save_result] writes, without the line feed that ends it. *)
Definition line_body (date_of_tweet : string) (r : result) : string :=
  "locationLong^locationLat^spider^" +:+ date_of_tweet +:+ "^" +:+ url r
  +:+ "^userName^screenName^<title>" +:+ Py.str_of (title r) +:+ "</title><body>"
  +:+ body r +:+ "</body>".

(** The text of a ledger made of the lines for some records, each with the
    date it was written at. *)
Definition ledger_text (entries : list (string * result)) : string :=
  foldr (λ e text, ledger_line e.1 e.2 +:+ text) "" entries.

Definition urls_of (entries : list (string * result)) : list string :=
  map (λ e, url e.2) entries.

(** The lines [save_result] writes for some records. *)
Definition lines_of (entries : list (string * result)) : list string :=
  map (λ e, ledger_line e.1 e.2) entries.

(** The texts written, in order, among the system calls of a trace. *)
Fixpoint writes (tr : list event) : list string :=
  match tr with
  | [] => []
  | EvWrite text :: tr' => text :: writes tr'
  | _ :: tr' => writes tr'
  end.

(** What a stretch of a run has done between two worlds, [entries] being the
    records it has written with their dates: the trace has grown by their
    writes, the output file by their lines, the lock is as it was, no URL was
    written twice, and every record written is the result of crawling a URL
    that was not in the set of crawled URLs the stretch began with. *)
Definition extends (env : environment) (out : string) (urls_crawled : gset string)
    (w w' : world) (entries : list (string * result)) : Prop :=
  trace w' = trace w ++ map (λ e, EvWrite (ledger_line e.1 e.2)) entries
  ∧ files w' = <[out := RegularFile (Some (text_of (files w) out +:+ ledger_text entries))]>
                 (files w)
  ∧ locked w' = locked w
  ∧ NoDup (urls_of entries)
  ∧ Forall (λ e, (url (e.2) ∉ urls_crawled)
                 ∧ crawl (pages env) (url (e.2)) = Some (e.2)
                 ∧ ∃ n, e.1 = clock env n) entries.

(** The output file is there, as after [open]. *)
Definition is_open (w : world) (out : string) : Prop :=
  ∃ old, files w !! out = Some (RegularFile (Some old)).

(** [open(file_path, "a")] succeeds on this name. *)
Definition openable (d : directory) (file : string) : bool :=
  match d !! file with
  | None | Some (RegularFile (Some _)) => true
  | Some (RegularFile None) | Some NotRegular => false
  end.

(** * Properties *)

(** ** The crawl state ledger *)

Lemma scan_lines_spec (lines : list string) (acc : gset string) (x : string) :
  x ∈ scan_lines lines acc
  ↔ x ∈ acc ∨ ∃ line, line ∈ leading_well_formed lines ∧ identity_key line = x.
Proof.
  revert acc. induction lines as [|line rest IH]; intros acc; simpl.
  - split; [auto|]. intros [H|(line & H & _)]; [done|]. by apply elem_of_nil in H.
  - unfold well_formed. destruct (length (Py.split SEP line) =? 8) eqn:E; simpl.
    + rewrite IH, elem_of_union, elem_of_singleton. unfold identity_key at 2. split.
      * intros [[H| ->]|(l & Hl & Hk)]; [by left| |].
        -- right. exists line. split; [apply list_elem_of_here|done].
        -- right. exists l. split; [by apply list_elem_of_further|done].
      * intros [H|(l & Hl & Hk)]; [by left; left|].
        apply elem_of_cons in Hl as [->|Hl]; [left; right; by rewrite <- Hk|].
        right. by exists l.
    + split; [auto|]. intros [H|(l & H & _)]; [done|]. by apply elem_of_nil in H.
Qed.

Lemma foldl_union_spec {A} (g : A → gset string) (l : list A) (init : gset string) (x : string) :
  x ∈ foldl (λ acc a, acc ∪ g a) init l ↔ x ∈ init ∨ ∃ a, a ∈ l ∧ x ∈ g a.
Proof.
  revert init. induction l as [|a l IH]; intros init; simpl.
  - split; [auto|]. intros [H|(a & H & _)]; [done|]. by apply elem_of_nil in H.
  - rewrite IH, elem_of_union. split.
    + intros [[H|H]|(b & Hb & Hx)]; [by left| |].
      * right. exists a. split; [apply list_elem_of_here|done].
      * right. exists b. split; [by apply list_elem_of_further|done].
    + intros [H|(b & Hb & Hx)]; [by left; left|].
      apply elem_of_cons in Hb as [->|Hb]; [by left; right|]. right. by exists b.
Qed.

Lemma regular_files_spec (d : directory) (file : string) :
  file ∈ (map_to_list (filter (λ kv, is_regular kv.2 = true) d)).*1
  ↔ ∃ e, d !! file = Some e ∧ is_regular e = true.
Proof.
  rewrite list_elem_of_fmap. split.
  - intros ([f e] & -> & H). apply elem_of_map_to_list in H.
    apply map_lookup_filter_Some in H as [H1 H2]. by exists e.
  - intros (e & H1 & H2). exists (file, e). split; [done|].
    apply elem_of_map_to_list. by apply map_lookup_filter_Some.
Qed.

Lemma urls_crawled_in_file_spec (d : directory) (file x : string) :
  x ∈ urls_crawled_in_file d file
  ↔ ∃ content line,
      d !! file = Some (RegularFile (Some content))
      ∧ line ∈ leading_well_formed (stripped_lines content) ∧ identity_key line = x.
Proof.
  unfold urls_crawled_in_file. destruct (d !! file) as [[[content|]|]|] eqn:E.
  - rewrite scan_lines_spec. split.
    + intros [H|(line & H1 & H2)]; [by apply not_elem_of_empty in H|]. by exists content, line.
    + intros (c & line & [= <-] & H1 & H2). right. by exists line.
  - split; [intros H; by apply not_elem_of_empty in H|]. by intros (? & ? & ? & _).
  - split; [intros H; by apply not_elem_of_empty in H|]. by intros (? & ? & ? & _).
  - split; [intros H; by apply not_elem_of_empty in H|]. by intros (? & ? & ? & _).
Qed.

Lemma leading_well_formed_sound (lines : list string) (line : string) :
  line ∈ leading_well_formed lines → line ∈ lines ∧ well_formed line = true.
Proof.
  induction lines as [|l rest IH]; simpl; [by intros H%elem_of_nil|].
  destruct (well_formed l) eqn:E; [|by intros H%elem_of_nil].
  intros [->|H]%elem_of_cons; [split; [apply list_elem_of_here|done]|].
  destruct (IH H) as [H1 H2]. split; [by apply list_elem_of_further|done].
Qed.

(** The set holds exactly the keys of the leading well-formed lines. *)
Lemma urls_crawled_in_dir_spec (d : directory) (x : string) :
  x ∈ urls_crawled_in_dir d
  ↔ ∃ line, leading_line_in_dir d line ∧ identity_key line = x.
Proof.
  unfold urls_crawled_in_dir, leading_line_in_dir. rewrite foldl_union_spec. split.
  - intros [H|(file & _ & H)]; [by apply not_elem_of_empty in H|].
    apply urls_crawled_in_file_spec in H as (content & line & H1 & H2 & H3).
    exists line. split; [by exists file, content|done].
  - intros (line & (file & content & H1 & H2) & H3). right. exists file. split.
    + apply regular_files_spec. by exists (RegularFile (Some content)).
    + apply urls_crawled_in_file_spec. by exists content, line.
Qed.

(** A leading line is a well-formed line of the directory. *)
Lemma leading_line_in_dir_sound (d : directory) (line : string) :
  leading_line_in_dir d line → line_in_dir d line ∧ well_formed line = true.
Proof.
  intros (file & content & H1 & H2).
  apply leading_well_formed_sound in H2 as [H2 H3]. split; [by exists file, content|done].
Qed.

(** C1, as the code has it: the set holds exactly the 5th fields of the lines
    that stand, in some readable regular file of the directory, before the
    first line of that file that does not split into 8 fields; each of them
    is a line that splits into 8 fields, so a line that does not contributes
    no value. *)
Theorem urls_crawled_in_dir_leading_lines (d : directory) (x : string) :
  (x ∈ urls_crawled_in_dir d
   ↔ ∃ line, leading_line_in_dir d line ∧ identity_key line = x)
  ∧ (x ∈ urls_crawled_in_dir d
     → ∃ line, line_in_dir d line ∧ well_formed line = true ∧ identity_key line = x).
Proof.
  split; [apply urls_crawled_in_dir_spec|].
  intros (line & Hlead & Hkey)%urls_crawled_in_dir_spec.
  apply leading_line_in_dir_sound in Hlead as [H1 H2]. by exists line.
Qed.

(** C1 as stated fails: a well-formed line after a damaged one is not read. *)
Lemma urls_crawled_in_dir_misses_later_lines :
  ¬ (∀ x, x ∈ urls_crawled_in_dir Sample.damaged
          ↔ ∃ line, line_in_dir Sample.damaged line
                    ∧ well_formed line = true ∧ identity_key line = x).
Proof.
  intros H. specialize (H "http://a/b"). destruct H as [_ H].
  assert (Hin : "http://a/b" ∈ urls_crawled_in_dir Sample.damaged).
  { apply H. exists Sample.sound_line. split.
    2:{ vm_compute. split; reflexivity. }
    exists Sample.out, ("oops" +:+ NL +:+ Sample.sound_line +:+ NL). split.
    - unfold Sample.damaged. apply lookup_singleton_eq.
    - vm_compute. apply list_elem_of_further, list_elem_of_here. }
  apply urls_crawled_in_dir_spec in Hin as (line & (file & content & H1 & H2) & H3).
  unfold Sample.damaged in H1. apply lookup_singleton_Some in H1 as [<- [= <-]].
  vm_compute in H2. by apply elem_of_nil in H2.
Qed.

(** ** Strings *)

Lemma app_cons (c : ascii) (s t : string) : String c s +:+ t = String c (s +:+ t).
Proof. reflexivity. Qed.

Lemma app_empty_l (t : string) : "" +:+ t = t.
Proof. reflexivity. Qed.

Lemma app_empty_r (s : string) : s +:+ "" = s.
Proof. induction s as [|c s IH]; [done|]. by rewrite app_cons, IH. Qed.

Lemma app_assoc_str (s t u : string) : (s +:+ t) +:+ u = s +:+ (t +:+ u).
Proof. induction s as [|c s IH]; [done|]. by rewrite !app_cons, IH. Qed.

Lemma length_app_str (s t : string) :
  String.length (s +:+ t) = String.length s + String.length t.
Proof. induction s as [|c s IH]; [done|]. rewrite app_cons. simpl. by rewrite IH. Qed.

Lemma count_chr_app (c : ascii) (s t : string) :
  Py.count_chr c (s +:+ t) = Py.count_chr c s + Py.count_chr c t.
Proof.
  induction s as [|a s IH]; [done|]. rewrite app_cons. simpl. rewrite IH. lia.
Qed.

Lemma has_chr_count (c : ascii) (s : string) :
  Py.has_chr c s = false ↔ Py.count_chr c s = 0.
Proof.
  induction s as [|a s IH]; simpl; [done|].
  destruct (Py.chr_eqb a c); simpl; [split; [done|lia]|apply IH].
Qed.

Lemma has_chr_app (c : ascii) (s t : string) :
  Py.has_chr c (s +:+ t) = Py.has_chr c s || Py.has_chr c t.
Proof.
  induction s as [|a s IH]; [done|]. rewrite app_cons. simpl. rewrite IH.
  by destruct (Py.chr_eqb a c).
Qed.

Lemma split_not_nil (c : ascii) (s : string) : Py.split c s ≠ [].
Proof.
  destruct s as [|a s]; simpl; [done|].
  destruct (Py.chr_eqb a c); [done|]. by destruct (Py.split c s).
Qed.

(** A text splits into one field more than it has separators. *)
Lemma split_length (c : ascii) (s : string) :
  length (Py.split c s) = S (Py.count_chr c s).
Proof.
  induction s as [|a s IH]; simpl; [done|].
  destruct (Py.chr_eqb a c); simpl; [by rewrite IH|].
  destruct (Py.split c s) eqn:E; [by apply split_not_nil in E|]. simpl in *. lia.
Qed.

Lemma split_clean (c : ascii) (s : string) :
  Py.has_chr c s = false → Py.split c s = [s].
Proof.
  induction s as [|a s IH]; simpl; [done|].
  destruct (Py.chr_eqb a c); simpl; [done|]. intros H. by rewrite (IH H).
Qed.

(** The first field ends at the first separator. *)
Lemma split_app_sep (c : ascii) (s t : string) :
  Py.has_chr c s = false → Py.split c (s +:+ String c t) = s :: Py.split c t.
Proof.
  induction s as [|a s IH]; simpl.
  - intros _. unfold Py.chr_eqb. by rewrite Ascii.eqb_refl.
  - destruct (Py.chr_eqb a c); simpl; [done|].
    intros H. by rewrite (IH H).
Qed.

Lemma remove_chr_clean (c : ascii) (s : string) : Py.has_chr c (Py.remove_chr c s) = false.
Proof.
  induction s as [|a s IH]; simpl; [done|].
  destruct (Py.chr_eqb a c) eqn:E; simpl; [done|]. by rewrite E.
Qed.

Lemma startswith_spec (p s : string) :
  Py.startswith p s = true ↔ ∃ post, s = p +:+ post.
Proof.
  revert s. induction p as [|a p IH]; intros s; simpl.
  - split; [intros _; by exists s|done].
  - destruct s as [|b s].
    + split; [done|]. intros (post & H). by rewrite app_cons in H.
    + unfold Py.chr_eqb. rewrite andb_true_iff, IH, Ascii.eqb_eq. split.
      * intros (-> & post & ->). by exists post.
      * intros (post & H). rewrite app_cons in H. injection H as -> ->. eauto.
Qed.

(** [sub in s] holds exactly when [sub] occurs in [s]. *)
Lemma contains_spec (sub s : string) :
  Py.contains sub s = true ↔ substring_of sub s.
Proof.
  unfold substring_of. induction s as [|b s IH]; simpl.
  - rewrite orb_false_r, startswith_spec. split.
    + intros (post & H). by exists "", post.
    + intros (pre & post & H). destruct pre as [|a pre]; [by exists post|].
      by rewrite app_cons in H.
  - rewrite orb_true_iff, IH. split.
    + intros [H|(pre & post & ->)].
      * apply startswith_spec in H as (post & H). by exists "", post.
      * by exists (String b pre), post.
    + intros (pre & post & H). destruct pre as [|a pre].
      * left. apply startswith_spec. by exists post.
      * rewrite app_cons in H. injection H as -> ->. right. by exists pre, post.
Qed.

Lemma lower_chr_idempotent (c : ascii) : Py.lower_chr (Py.lower_chr c) = Py.lower_chr c.
Proof. by destruct c as [[] [] [] [] [] [] [] []]. Qed.

Lemma lower_idempotent (s : string) : Py.lower (Py.lower s) = Py.lower s.
Proof.
  induction s as [|c s IH]; simpl; [done|]. by rewrite lower_chr_idempotent, IH.
Qed.

(** ** The result writer *)

Lemma ledger_line_separators (date : string) (r : result) :
  Py.count_chr SEP (ledger_line date r)
  = 7 + Py.count_chr SEP date + Py.count_chr SEP (url r)
    + Py.count_chr SEP (Py.str_of (title r)) + Py.count_chr SEP (body r).
Proof.
  unfold ledger_line. rewrite !count_chr_app. simpl. lia.
Qed.

Lemma crawl_some (w : web) (link : string) (r : result) :
  crawl w link = Some r
  ↔ ∃ soup title_tag body_tag,
      w link = Some soup ∧ Html.find "title" soup = Some title_tag
      ∧ Html.find "body" soup = Some body_tag
      ∧ r = {| url := link; title := Html.string_of title_tag;
               body := Py.remove_chr SEP
                         (add_paragraphs (find_all_text "span" body_tag)
                            (add_paragraphs (find_all_text "p" body_tag) "")) |}.
Proof.
  unfold crawl. split.
  - destruct (w link) as [soup|]; simpl; [|done].
    destruct (Html.find "title" soup) as [t|] eqn:Et; simpl; [|done].
    destruct (Html.find "body" soup) as [b|] eqn:Eb; simpl; [|done].
    intros [= <-]. by exists soup, t, b.
  - intros (soup & t & b & -> & H1 & H2 & ->). simpl. rewrite H1. simpl. by rewrite H2.
Qed.

Lemma crawl_body_clean (w : web) (link : string) (r : result) :
  crawl w link = Some r → Py.has_chr SEP (body r) = false.
Proof.
  intros (soup & t & b & _ & _ & _ & ->)%crawl_some. simpl. apply remove_chr_clean.
Qed.

(** A record whose title holds the separator: the line written for it has 9
    fields, and the loader gets nothing out of a ledger made of that line. *)
Lemma separator_in_title_hides_url :
  ∃ r, crawl Sample.news Sample.story = Some r
       ∧ Py.has_chr SEP (Py.str_of (title r)) = true
       ∧ length (Py.split SEP (ledger_line Sample.date r)) = 9
       ∧ urls_crawled_in_dir {[ Sample.out := RegularFile (Some (ledger_line Sample.date r)) ]} = ∅.
Proof.
  eexists. split; [vm_compute; reflexivity|]. repeat split; vm_compute; reflexivity.
Qed.

(** C9: [crawl] strips the separator from the body alone, [save_result]
    writes title and URL as they are; so the line written for a crawled record
    splits into 8 fields exactly when neither title nor URL holds a separator,
    and for some record with a separator in its title the line has more than 8
    fields and the loader cannot recover the URL. *)
Theorem separator_stripped_from_body_only (w : web) (link date : string) (r : result) :
  crawl w link = Some r →
  Py.has_chr SEP date = false →
  Py.has_chr SEP (body r) = false
  ∧ (length (Py.split SEP (ledger_line date r)) = 8
     ↔ Py.has_chr SEP (Py.str_of (title r)) = false ∧ Py.has_chr SEP (url r) = false)
  ∧ (∃ r', crawl Sample.news Sample.story = Some r'
           ∧ Py.has_chr SEP (Py.str_of (title r')) = true
           ∧ 8 < length (Py.split SEP (ledger_line Sample.date r'))
           ∧ url r' ∉ urls_crawled_in_dir
                        {[ Sample.out := RegularFile (Some (ledger_line Sample.date r')) ]}).
Proof.
  intros Hr Hdate. pose proof (crawl_body_clean _ _ _ Hr) as Hbody.
  split; [done|]. split.
  - rewrite split_length, ledger_line_separators, !has_chr_count.
    apply has_chr_count in Hdate, Hbody. lia.
  - destruct separator_in_title_hides_url as (r' & H1 & H2 & H3 & H4).
    exists r'. rewrite H3, H4. repeat split; [done|done|lia|apply not_elem_of_empty].
Qed.

Lemma separator_stripped_from_body_only_witness :
  Py.has_chr SEP (body {| url := "http://a/b"; title := Some "T"; body := "B " |}) = false
  ∧ (length (Py.split SEP (ledger_line Sample.date
                             {| url := "http://a/b"; title := Some "T"; body := "B " |})) = 8
     ↔ Py.has_chr SEP (Py.str_of (Some "T")) = false ∧ Py.has_chr SEP "http://a/b" = false)
  ∧ (∃ r', crawl Sample.news Sample.story = Some r'
           ∧ Py.has_chr SEP (Py.str_of (title r')) = true
           ∧ 8 < length (Py.split SEP (ledger_line Sample.date r'))
           ∧ url r' ∉ urls_crawled_in_dir
                        {[ Sample.out := RegularFile (Some (ledger_line Sample.date r')) ]}).
Proof.
  apply (separator_stripped_from_body_only Sample.titled "http://a/b" Sample.date); reflexivity.
Defined.

Lemma app_inside (c : ascii) (s t u : string) :
  (s +:+ String c t) +:+ u = s +:+ String c (t +:+ u).
Proof. by rewrite app_assoc_str, app_cons. Qed.

(** The fields of the line written for a record whose parts hold no
    separator. *)
Lemma ledger_line_fields (date : string) (r : result) :
  Py.has_chr SEP date = false →
  Py.has_chr SEP (url r) = false →
  Py.has_chr SEP (Py.str_of (title r)) = false →
  Py.has_chr SEP (body r) = false →
  ∃ line,
    ledger_line date r = line +:+ NL
    ∧ Py.split SEP line
      = ["locationLong"; "locationLat"; "spider"; date; url r; "userName"; "screenName";
         "<title>" +:+ Py.str_of (title r) +:+ "</title><body>" +:+ body r +:+ "</body>"]
    ∧ Py.has_chr "010" line
      = Py.has_chr "010" date || Py.has_chr "010" (url r)
        || Py.has_chr "010" (Py.str_of (title r)) || Py.has_chr "010" (body r).
Proof.
  intros Hd Hu Ht Hb.
  set (text := "<title>" +:+ Py.str_of (title r) +:+ "</title><body>" +:+ body r +:+ "</body>").
  exists ("locationLong" +:+ String SEP ("locationLat" +:+ String SEP ("spider" +:+ String SEP
            (date +:+ String SEP (url r +:+ String SEP ("userName" +:+ String SEP
               ("screenName" +:+ String SEP text))))))).
  split; [|split].
  - unfold ledger_line. fold text. by rewrite !app_inside.
  - rewrite !split_app_sep; try done.
    rewrite split_clean; [done|].
    unfold text. rewrite !has_chr_app, Ht, Hb. reflexivity.
  - unfold text. rewrite !has_chr_app. simpl. rewrite !has_chr_app. simpl.
    rewrite !has_chr_app. simpl. rewrite !has_chr_app. simpl.
    rewrite !orb_false_r. by rewrite !orb_assoc.
Qed.

Lemma save_result_writes (env : environment) (filename old : string) (r : result) (w : world) :
  files w !! filename = Some (RegularFile (Some old)) →
  String.length (ledger_line (clock env (ticks w)) r) ≤ disk_free w →
  ∃ w', save_result env filename r w = (Done (), w')
        ∧ files w' = <[filename := RegularFile (Some (old +:+ ledger_line (clock env (ticks w)) r))]> (files w)
        ∧ trace w' = trace w ++ [EvWrite (ledger_line (clock env (ticks w)) r)]
        ∧ locked w' = locked w.
Proof.
  intros Hf Hd. unfold save_result, current_date_for_timestamp, mbind, M_bind, write.
  generalize dependent (ledger_line (clock env (ticks w)) r). intros line Hd. simpl.
  rewrite Hf. destruct (_ <? _) eqn:E; [apply Nat.ltb_lt in E; lia|].
  eexists. split; [reflexivity|]. done.
Qed.

(** C6, as the code has it: for the record with url [http://a/b], title [T]
    and body [B], [save_result] appends one line ended by a line feed; its 5th
    field is the url and its 8th field is [<title>T</title><body>B</body>],
    the body as it stands in the record, with no space added. *)
Theorem save_result_sample_line (env : environment) (filename old : string) (w : world) :
  let date := clock env (ticks w) in
  files w !! filename = Some (RegularFile (Some old)) →
  String.length (ledger_line date Sample.record) ≤ disk_free w →
  Py.has_chr SEP date = false →
  Py.has_chr "010" date = false →
  ∃ line w',
    save_result env filename Sample.record w = (Done (), w')
    ∧ text_of (files w') filename = old +:+ line +:+ NL
    ∧ Py.has_chr "010" line = false
    ∧ Py.split SEP line
      = ["locationLong"; "locationLat"; "spider"; date; "http://a/b"; "userName";
         "screenName"; "<title>T</title><body>B</body>"].
Proof.
  intros date Hf Hfree Hsep Hnl.
  destruct (ledger_line_fields date Sample.record) as (line & Hline & Hsplit & Hclean);
    [done..|].
  destruct (save_result_writes env filename old Sample.record w Hf Hfree)
    as (w' & Hrun & Hfiles & _).
  exists line, w'. split; [done|]. split; [|split; [|done]].
  - unfold text_of. rewrite Hfiles, lookup_insert_eq. fold date. by rewrite Hline.
  - rewrite Hclean, Hnl. reflexivity.
Qed.

Lemma save_result_sample_line_witness :
  ∃ line w',
    save_result (Sample.env []) Sample.out Sample.record
      (boot {[ Sample.out := RegularFile (Some "") ]} 1000) = (Done (), w')
    ∧ text_of (files w') Sample.out = "" +:+ line +:+ NL
    ∧ Py.has_chr "010" line = false
    ∧ Py.split SEP line
      = ["locationLong"; "locationLat"; "spider"; Sample.date; "http://a/b"; "userName";
         "screenName"; "<title>T</title><body>B</body>"].
Proof.
  apply (save_result_sample_line (Sample.env []) Sample.out ""
           (boot {[ Sample.out := RegularFile (Some "") ]} 1000)).
  - apply lookup_singleton_eq.
  - vm_compute. lia.
  - reflexivity.
  - reflexivity.
Defined.

(** C6 as stated fails: the 8th field of the line written for the record has
    no space before [</body>]. *)
Lemma save_result_adds_no_space :
  let w' := (save_result (Sample.env []) Sample.out Sample.record
               (boot {[ Sample.out := RegularFile (Some "") ]} 1000)).2 in
  nth 7 (Py.split SEP (nth 0 (stripped_lines (text_of (files w') Sample.out)) "")) ""
  ≠ "<title>T</title><body>B </body>".
Proof. vm_compute. discriminate. Qed.

(** The space of [B </body>] is made by [crawl], out of a paragraph [B]. *)
Lemma crawl_adds_the_space :
  crawl Sample.titled "http://a/b" = Some {| url := "http://a/b"; title := Some "T"; body := "B " |}.
Proof. reflexivity. Qed.

(** ** Content extraction *)

(** C5, as the code has it: when the fetch succeeds and the page has a
    [title] and a [body] element, [crawl] returns a record, whose title is the
    [.string] of the title element and whose body is the empty string when
    no paragraph or span has text; when the page lacks the [title] or the
    [body] element, the result is absent, as it is when the fetch fails. *)
Theorem crawl_result (w : web) (link : string) (soup : Html.node) :
  w link = Some soup →
  match Html.find "title" soup, Html.find "body" soup with
  | Some t, Some b =>
      ∃ r, crawl w link = Some r ∧ url r = link ∧ title r = Html.string_of t
           ∧ (find_all_text "p" b = [] → find_all_text "span" b = [] → body r = "")
  | _, _ => crawl w link = None
  end.
Proof.
  intros Hw. unfold crawl. rewrite Hw. simpl.
  destruct (Html.find "title" soup) as [t|]; simpl; [|done].
  destruct (Html.find "body" soup) as [b|]; simpl; [|done].
  eexists. split; [reflexivity|]. simpl. repeat split. by intros -> ->.
Qed.

Lemma crawl_result_witness :
  ∃ r, crawl Sample.bare "http://a/b" = Some r ∧ url r = "http://a/b"
       ∧ title r = Html.string_of (Sample.title_tag "T")
       ∧ (find_all_text "p" (Html.Tag "body" [] [Html.Tag "div" [] []]) = []
          → find_all_text "span" (Html.Tag "body" [] [Html.Tag "div" [] []]) = []
          → body r = "").
Proof.
  exact (crawl_result Sample.bare "http://a/b" _ eq_refl).
Defined.

(** The fetch fails: no result. *)
Lemma crawl_fetch_failure (w : web) (link : string) : w link = None → crawl w link = None.
Proof. intros H. unfold crawl. by rewrite H. Qed.

(** C5 as stated fails: the fetch succeeds, the page has no title, and the
    result is absent. *)
Lemma crawl_untitled_page_absent :
  is_Some (Sample.untitled "http://a/b") ∧ crawl Sample.untitled "http://a/b" = None.
Proof. split; [by eexists|reflexivity]. Qed.

(** A title element without text gives no title string, written as [None]. *)
Lemma crawl_empty_title :
  title <$> crawl (λ _, Some (Sample.page [Html.Tag "title" [] []] [])) "u" = Some None.
Proof. reflexivity. Qed.

(** ** Link discovery *)

Lemma any_in_spec (xs : list string) (link : string) (proceed : bool) :
  any_in xs link proceed = true
  ↔ proceed = true ∨ ∃ x, x ∈ xs ∧ Py.contains x link = true.
Proof.
  unfold any_in. revert proceed. induction xs as [|x xs IH]; intros proceed; simpl.
  - split; [auto|]. intros [H|(x & H & _)]; [done|]. by apply elem_of_nil in H.
  - rewrite IH. split.
    + intros [H|(y & Hy & Hc)].
      * destruct (Py.contains x link) eqn:E; [|by left].
        right. exists x. split; [apply list_elem_of_here|done].
      * right. exists y. split; [by apply list_elem_of_further|done].
    + intros [->|(y & Hy & Hc)]; [left; by destruct (Py.contains x link)|].
      apply elem_of_cons in Hy as [->|Hy]; [left; by rewrite Hc|]. right. by exists y.
Qed.

Lemma visit_anchor_spec (pattern_story : string → bool) (publishers filter_list links : list string)
    (a : Html.node) (link : string) :
  link ∈ visit_anchor pattern_story publishers filter_list links a
  → link ∈ links ∨ kept pattern_story publishers filter_list a link.
Proof.
  unfold visit_anchor, kept.
  set (l := Py.lower (default "" (Html.get "href" a))).
  destruct (pattern_story l) eqn:Ep; [|by auto].
  destruct (any_in publishers l false) eqn:Eq; [|by auto].
  destruct filter_list as [|f fl].
  - intros [H|H%list_elem_of_singleton]%elem_of_app; [by left|]. subst.
    right. repeat split; [done..|]. by intros [].
  - change (0 <? length (f :: fl)) with true. cbv iota.
    destruct (any_in (f :: fl) l false) eqn:Ef; [|by auto].
    intros [H|H%list_elem_of_singleton]%elem_of_app; [by left|]. subst. by right.
Qed.

Lemma visit_anchors_spec (pattern_story : string → bool) (publishers filter_list : list string)
    (anchors : list Html.node) (links : list string) (link : string) :
  link ∈ foldl (visit_anchor pattern_story publishers filter_list) links anchors
  → link ∈ links ∨ ∃ a, a ∈ anchors ∧ kept pattern_story publishers filter_list a link.
Proof.
  revert links. induction anchors as [|a anchors IH]; intros links; simpl; [by left|].
  intros [H|(b & Hb & Hk)]%IH.
  - apply visit_anchor_spec in H as [H|H]; [by left|].
    right. exists a. split; [apply list_elem_of_here|done].
  - right. exists b. split; [by apply list_elem_of_further|done].
Qed.

(** Every link [get_links] returns went through the loop body: it is a
    lower-cased [href], the pattern matched it, a label of the seed occurs in
    it, and so does a filter when there are filters. *)
Lemma get_links_spec (beyond : regex_oracle) (w : web) (seed : string) (filter_list : list string)
    (link : string) :
  link ∈ get_links beyond w seed filter_list
  → ∃ publisher pattern_story a,
      url_publisher seed = Some publisher
      ∧ compile beyond
          (story_pattern (List.last (map Py.lower (Py.split "." publisher)) "")) = Some pattern_story
      ∧ kept pattern_story (map Py.lower (Py.split "." publisher)) filter_list a link.
Proof.
  unfold get_links, collect_links.
  destruct (url_publisher seed) as [publisher|]; simpl; [|by intros H%elem_of_nil].
  destruct (String.eqb (Py.strip publisher) ""); simpl; [by intros H%elem_of_nil|].
  destruct (compile beyond _) as [pattern_story|] eqn:Ec; simpl; [|by intros H%elem_of_nil].
  destruct (w seed) as [soup|]; simpl; [|by intros H%elem_of_nil].
  destruct (Html.find "body" soup) as [body|]; simpl; [|by intros H%elem_of_nil].
  intros [H%elem_of_nil|(a & _ & Hk)]%visit_anchors_spec; [done|].
  by exists publisher, pattern_story, a.
Qed.

(** C8: with a non-empty filter list, every link [get_links] returns holds
    one of the filter strings. *)
Theorem get_links_respects_filters (beyond : regex_oracle) (w : web) (seed : string)
    (filter_list : list string) (link : string) :
  filter_list ≠ [] →
  link ∈ get_links beyond w seed filter_list →
  ∃ f, f ∈ filter_list ∧ substring_of f link.
Proof.
  intros Hne (publisher & pattern_story & a & _ & _ & _ & _ & _ & Hf)%get_links_spec.
  specialize (Hf Hne). apply any_in_spec in Hf as [Hf|(f & Hin & Hc)]; [done|].
  exists f. split; [done|]. by apply contains_spec.
Qed.

Lemma get_links_respects_filters_witness :
  ∃ f, f ∈ ["politics"; "finance"] ∧ substring_of f "http://news.example.com/politics/1".
Proof.
  apply (get_links_respects_filters (λ _, None) Sample.two_stories Sample.seed).
  - discriminate.
  - vm_compute. apply list_elem_of_here.
Defined.

(** C10: every link [get_links] returns is its own lower-case image, and so
    is the URL of the record [crawl] makes of it, which is what [save_result]
    writes as identity key. *)
Theorem get_links_lower_case (beyond : regex_oracle) (w : web) (seed : string)
    (filter_list : list string) (link : string) :
  link ∈ get_links beyond w seed filter_list →
  Py.lower link = link
  ∧ ∀ w' r, crawl w' link = Some r → url r = link ∧ Py.lower (url r) = url r.
Proof.
  intros (publisher & pattern_story & a & _ & _ & -> & _)%get_links_spec.
  split; [apply lower_idempotent|].
  intros w' r (soup & t & b & _ & _ & _ & ->)%crawl_some. simpl.
  split; [done|apply lower_idempotent].
Qed.

Lemma get_links_lower_case_witness :
  Py.lower Sample.story = Sample.story
  ∧ ∀ w' r, crawl w' Sample.story = Some r
            → url r = Sample.story ∧ Py.lower (url r) = url r.
Proof.
  apply (get_links_lower_case (λ _, None) Sample.news Sample.seed []).
  vm_compute. apply list_elem_of_here.
Defined.

(** ** The orchestrator and the lock *)

Lemma save_result_quiet (env : environment) (filename : string) (r : result) (w : world) :
  (save_result env filename r w).1 ≠ Hang
  ∧ locked (save_result env filename r w).2 = locked w.
Proof.
  unfold save_result, current_date_for_timestamp, mbind, M_bind, write.
  generalize (ledger_line (clock env (ticks w)) r). intros line. simpl.
  by destruct (_ <? _).
Qed.

Lemma link_loop_quiet (env : environment) (filename : string) (links : list string)
    (urls_crawled : gset string) (w : world) :
  (link_loop env filename links urls_crawled w).1 ≠ Hang
  ∧ locked (link_loop env filename links urls_crawled w).2 = locked w.
Proof.
  revert urls_crawled w. induction links as [|link rest IH]; intros urls_crawled w; simpl.
  - done.
  - destruct (bool_decide (link ∈ urls_crawled)); [apply IH|].
    unfold mbind, M_bind. destruct (crawl (pages env) link) as [r|].
    + pose proof (save_result_quiet env filename r w) as [H1 H2].
      destruct (save_result env filename r w) as [[[]|e|] w1]; simpl in *; [|done..].
      rewrite <- H2. apply IH.
    + simpl. apply IH.
Qed.

Lemma seed_loop_quiet (env : environment) (filename : string) (filter_list seeds : list string)
    (urls_crawled : gset string) (w : world) :
  (seed_loop env filename filter_list seeds urls_crawled w).1 ≠ Hang
  ∧ locked (seed_loop env filename filter_list seeds urls_crawled w).2 = locked w.
Proof.
  revert urls_crawled w. induction seeds as [|seed rest IH]; intros urls_crawled w; simpl.
  - done.
  - destruct (bool_decide (seed ∈ urls_crawled)); [apply IH|].
    unfold mbind, M_bind.
    pose proof (link_loop_quiet env filename
                  (get_links (re_beyond env) (pages env) seed filter_list) urls_crawled w)
      as [H1 H2].
    destruct (link_loop _ _ _ _ w) as [[crawled|e|] w1]; simpl in *; [|done..].
    rewrite <- H2. apply IH.
Qed.

(** Waiting for the lock ends with the lock held, or leaves the lock as it
    was. *)
Lemma wait_and_lock_file_spec (replies : list flock_reply) (w : world) :
  match (wait_and_lock_file replies w).1 with
  | Done _ => locked (wait_and_lock_file replies w).2 = true
              ∧ EvLock ∈ trace (wait_and_lock_file replies w).2
  | _ => locked (wait_and_lock_file replies w).2 = locked w
  end.
Proof.
  revert w. induction replies as [|[] later IH]; intros w; simpl; [done| | |done].
  - split; [done|]. apply elem_of_app. right. apply list_elem_of_here.
  - unfold mbind, M_bind. simpl.
    match goal with |- context [wait_and_lock_file later ?w'] => specialize (IH w') end.
    exact IH.
Qed.

(** C3: whatever the run meets, it does not end holding the lock.  When the
    loop over the seeds completes, the lock is given up by [unlock_file] and
    the file is closed after it; when an exception leaves the loop, the file
    is closed on the way out, which gives up the lock. *)
Theorem lock_released_on_every_exit (env : environment) (filename : string)
    (filter_list seeds : list string) (d : directory) (free : nat) :
  let end_ := crawl_run env filename filter_list seeds (boot d free) in
  locked end_.2 = false
  ∧ (end_.1 = Done () → ∃ before, trace end_.2 = before ++ [EvUnlock; EvClose])
  ∧ (∀ e, end_.1 = Raised e → EvLock ∈ trace end_.2 →
          ∃ before, trace end_.2 = before ++ [EvClose]).
Proof.
  unfold crawl_run, with_open. set (w0 := boot d free).
  set (urls_crawled := urls_crawled_in_dir (files w0)).
  assert (Hopen : (open_append filename w0).1 ≠ Hang
                  ∧ locked (open_append filename w0).2 = false
                  ∧ ((open_append filename w0).1 = Raised OSError
                     → trace (open_append filename w0).2 = [])).
  { unfold open_append. simpl. by destruct (d !! filename) as [[[c|]|]|]. }
  destruct (open_append filename w0) as [[[]|e|] w1]; simpl in Hopen;
    destruct Hopen as (Hh & Hl & Ht); [| |done].
  2:{ simpl. split; [done|]. split; [done|]. intros e' _ Hin. destruct e.
      rewrite Ht in Hin by done. by apply elem_of_nil in Hin. }
  unfold mbind, M_bind.
  pose proof (wait_and_lock_file_spec (flock_replies env) w1) as Hwait.
  destruct (wait_and_lock_file (flock_replies env) w1) as [[[]|e|] w2]; simpl in Hwait.
  - destruct Hwait as [Hlock _].
    pose proof (seed_loop_quiet env filename filter_list seeds urls_crawled w2) as [Hs1 Hs2].
    destruct (seed_loop env filename filter_list seeds urls_crawled w2) as [[crawled|e|] w3];
      simpl in *; [| |done].
    + split; [done|]. split; [|done]. intros _.
      exists (trace w3). by rewrite <- app_assoc.
    + split; [done|]. split; [done|]. intros _ _ _. by exists (trace w3).
  - simpl. split; [done|]. split; [done|]. intros _ _ _. by exists (trace w2).
  - simpl. by rewrite Hwait.
Qed.

(** A run that completes: the lock is taken after one refusal, a line is
    written, the lock is released and the file closed. *)
Lemma run_completes :
  let end_ := crawl_run (Sample.env [Busy; Granted]) Sample.out [] [Sample.seed] (boot ∅ 1000) in
  end_.1 = Done () ∧ locked end_.2 = false
  ∧ trace end_.2
    = [EvOpen; EvSleep; EvLock; EvWrite (text_of (files end_.2) Sample.out); EvUnlock; EvClose].
Proof. vm_compute. repeat split; reflexivity. Qed.

(** A run whose write fails on a full device: the exception leaves the loop,
    [unlock_file] is not reached, and closing the file releases the lock. *)
Lemma run_raises :
  let end_ := crawl_run (Sample.env [Granted]) Sample.out [] [Sample.seed] (boot ∅ 10) in
  end_.1 = Raised OSError ∧ locked end_.2 = false
  ∧ trace end_.2 = [EvOpen; EvLock; EvClose].
Proof. vm_compute. repeat split; reflexivity. Qed.

(** A lock that is never granted: the run does not get past the waiting. *)
Lemma run_waits :
  let end_ := crawl_run (Sample.env [Busy; Busy]) Sample.out [] [Sample.seed] (boot ∅ 1000) in
  end_.1 = Hang ∧ locked end_.2 = false ∧ trace end_.2 = [EvOpen; EvSleep; EvSleep].
Proof. vm_compute. repeat split; reflexivity. Qed.

(** C2 fails on the code: the first run writes one line for the story; its
    title holds the separator, so the line has 9 fields and the second run
    loads no URL from it, crawls the story again and writes a second line
    with the same 5th field. *)
Theorem second_run_repeats_identity_key :
  (crawl_run (Sample.env [Granted]) Sample.out [] [Sample.seed] (boot ∅ 1000)).1 = Done ()
  ∧ identity_keys (text_of (files Sample.after_run1) Sample.out) = [Sample.story]
  ∧ urls_crawled_in_dir (files Sample.after_run1) = ∅
  ∧ (crawl_run (Sample.env [Granted]) Sample.out [] [Sample.seed]
       (boot (files Sample.after_run1) 1000)).1 = Done ()
  ∧ identity_keys (text_of (files Sample.after_run2) Sample.out) = [Sample.story; Sample.story].
Proof. vm_compute. repeat split; reflexivity. Qed.

(** With a title that holds no separator the second run finds the story in
    the ledger and writes nothing. *)
Lemma second_run_skips_recorded_story :
  let env := Sample.env_of (Sample.news_titled "Up and Down") [Granted] in
  let run1 := crawl_run env Sample.out [] [Sample.seed] (boot ∅ 1000) in
  let run2 := crawl_run env Sample.out [] [Sample.seed] (boot (files run1.2) 1000) in
  elements (urls_crawled_in_dir (files run1.2)) = [Sample.story]
  ∧ run2.1 = Done ()
  ∧ identity_keys (text_of (files run2.2) Sample.out) = [Sample.story]
  ∧ trace run2.2 = [EvOpen; EvLock; EvUnlock; EvClose].
Proof. vm_compute. repeat split; reflexivity. Qed.

(** C7 fails on the code: the seed's path holds a [|], which the pattern text
    takes for an alternation, and a link without scheme matches its second
    branch. *)
Theorem get_links_returns_link_without_scheme (beyond : regex_oracle) :
  publisher_token Sample.piped_seed = Some "com/news|sports"
  ∧ get_links beyond Sample.piped Sample.piped_seed [] = ["sports/example"]
  ∧ Py.startswith "http://" "sports/example" = false
  ∧ Py.startswith "https://" "sports/example" = false.
Proof. vm_compute. repeat split; reflexivity. Qed.

(** ** The publisher pattern *)

Lemma parse_publisher_pattern : Re.parse PUBLISHER_PATTERN = Re.Parsed PUBLISHER_REGEX.
Proof. reflexivity. Qed.

Lemma until_step (body : Re.matcher) (greedy : bool) (lo : nat) (hi : option nat)
    (fuel count : nat) (last_ptr : option nat) (pos : nat) (s : string) (g : Re.groups)
    (k : Re.cont) :
  Re.until body greedy lo hi (S fuel) count last_ptr pos s g k
  = if count <? lo then
      body pos s g (λ pos' s' g', Re.until body greedy lo hi fuel (S count) last_ptr pos' s' g' k)
    else
      let more (_ : unit) :=
        if Re.allows_more count hi && negb (Re.same_ptr last_ptr pos)
        then body pos s g (λ pos' s' g',
               Re.until body greedy lo hi fuel (S count) (Some pos) pos' s' g' k)
        else None in
      if greedy then Re.first_of (more ()) (k pos s g)
      else Re.first_of (k pos s g) (more ()).
Proof. reflexivity. Qed.

Lemma run_any_cons (c : ascii) (s : string) (pos : nat) (g : Re.groups) (k : Re.cont) :
  Py.chr_eqb c "010" = false → Re.run Re.RAny pos (String c s) g k = k (S pos) s g.
Proof. intros H. simpl. unfold Re.one_chr. by rewrite H. Qed.

Lemma run_any_empty (pos : nat) (g : Re.groups) (k : Re.cont) :
  Re.run Re.RAny pos "" g k = None.
Proof. reflexivity. Qed.

(** The pointer of the last round lies behind the position. *)
Lemma same_ptr_behind (last_ptr : option nat) (pos : nat) :
  (∀ q, last_ptr = Some q → q < pos) → Re.same_ptr last_ptr pos = false.
Proof.
  destruct last_ptr as [q|]; simpl; [|done]. intros H. apply Nat.eqb_neq.
  specialize (H q eq_refl). lia.
Qed.

(** [.*$] takes a text without line feed whole. *)
Lemma star_any_to_end (t : string) (fuel count : nat) (last_ptr : option nat) (pos : nat)
    (g : Re.groups) :
  Py.has_chr "010" t = false →
  String.length t < fuel →
  (∀ q, last_ptr = Some q → q < pos) →
  Re.until (Re.run Re.RAny) true 0 None fuel count last_ptr pos t g
    (λ pos' s' g', Re.run Re.REol pos' s' g' Re.accept)
  = Some (pos + String.length t, g).
Proof.
  revert fuel count last_ptr pos.
  induction t as [|c t IH]; intros fuel count last_ptr pos Hnl Hfuel Hptr;
    (destruct fuel as [|fuel]; [simpl in Hfuel; lia|]); rewrite until_step;
    change (count <? 0) with false; cbv iota zeta;
    rewrite (same_ptr_behind _ _ Hptr); simpl Re.allows_more; cbv iota; simpl negb;
    simpl andb; cbv iota.
  - rewrite run_any_empty. simpl. by rewrite Nat.add_0_r.
  - simpl in Hnl. apply orb_false_iff in Hnl as [Hc Hnl].
    rewrite (run_any_cons _ _ _ _ _ Hc).
    rewrite IH; [|done|simpl in Hfuel; lia|intros q [= <-]; lia].
    simpl. do 2 f_equal. lia.
Qed.

Lemma run_star_any_to_end (t : string) (pos : nat) (g : Re.groups) :
  Py.has_chr "010" t = false →
  Re.run (Re.RSeq (Re.RRep 0 None true Re.RAny) Re.REol) pos t g Re.accept
  = Some (pos + String.length t, g).
Proof.
  intros Hnl. change (Re.run (Re.RSeq (Re.RRep 0 None true Re.RAny) Re.REol) pos t g Re.accept)
    with (Re.until (Re.run Re.RAny) true 0 None (0 + String.length t + 3) 0 None pos t g
            (λ pos' s' g', Re.run Re.REol pos' s' g' Re.accept)).
  apply star_any_to_end; [done|lia|done].
Qed.

(** [.{2,20}.*$] takes a text without line feed whole, once two characters
    are sure. *)
Lemma some_any_to_end (t : string) (fuel count : nat) (last_ptr : option nat) (pos : nat)
    (g : Re.groups) :
  Py.has_chr "010" t = false →
  String.length t < fuel →
  (∀ q, last_ptr = Some q → q < pos) →
  2 ≤ count + String.length t →
  Re.until (Re.run Re.RAny) true 2 (Some 20) fuel count last_ptr pos t g
    (λ pos' s' g', Re.run (Re.RSeq (Re.RRep 0 None true Re.RAny) Re.REol) pos' s' g' Re.accept)
  = Some (pos + String.length t, g).
Proof.
  revert fuel count last_ptr pos.
  induction t as [|c t IH]; intros fuel count last_ptr pos Hnl Hfuel Hptr Hcount;
    (destruct fuel as [|fuel]; [simpl in Hfuel; lia|]); rewrite until_step.
  - simpl in Hcount. destruct (count <? 2) eqn:E; [apply Nat.ltb_lt in E; lia|].
    cbv zeta. rewrite run_any_empty.
    rewrite run_star_any_to_end by done.
    by destruct (Re.allows_more count (Some 20) && negb (Re.same_ptr last_ptr pos)).
  - pose proof Hnl as Hnl'. simpl in Hnl. apply orb_false_iff in Hnl as [Hc Hnl].
    simpl in Hfuel, Hcount.
    destruct (count <? 2) eqn:E.
    + rewrite (run_any_cons _ _ _ _ _ Hc).
      rewrite IH; [|done|lia|intros q Hq; specialize (Hptr q Hq); lia|lia].
      simpl. do 2 f_equal. lia.
    + cbv zeta. rewrite (same_ptr_behind _ _ Hptr). simpl negb. rewrite andb_true_r.
      destruct (Re.allows_more count (Some 20)).
      * rewrite (run_any_cons _ _ _ _ _ Hc).
        rewrite IH; [|done|lia|intros q [= <-]; lia|lia]. simpl. do 2 f_equal. lia.
      * by rewrite run_star_any_to_end.
Qed.

(** [.*] followed by something that wants a dot fails on a text without
    dot. *)
Lemma star_any_no_dot (t : string) (fuel count : nat) (last_ptr : option nat) (pos : nat)
    (g : Re.groups) (k : Re.cont) :
  Py.has_chr "." t = false →
  (∀ pos' g', k pos' "" g' = None) →
  (∀ pos' c s' g', Py.chr_eqb c "." = false → k pos' (String c s') g' = None) →
  Re.until (Re.run Re.RAny) true 0 None fuel count last_ptr pos t g k = None.
Proof.
  intros Hdot Hend Hother. revert fuel count last_ptr pos Hdot.
  induction t as [|c t IH]; intros fuel count last_ptr pos Hdot;
    (destruct fuel as [|fuel]; [done|]); rewrite until_step;
    change (count <? 0) with false; cbv iota zeta.
  - rewrite run_any_empty, Hend. by destruct (_ && _).
  - simpl in Hdot. apply orb_false_iff in Hdot as [Hc Hdot].
    rewrite (Hother _ _ _ _ Hc). destruct (_ && _); [|done].
    destruct (Py.chr_eqb c "010") eqn:Enl.
    + simpl. unfold Re.one_chr. by rewrite Enl.
    + rewrite (run_any_cons _ _ _ _ _ Enl). by rewrite IH.
Qed.

(** Greedy [.*] before something that wants a dot stops at the last dot of
    the text, when what follows the dot satisfies the rest. *)
Lemma star_any_last_dot (p t : string) (fuel count : nat) (last_ptr : option nat) (pos : nat)
    (g : Re.groups) (k : Re.cont) (a : Re.answer) :
  Py.has_chr "010" p = false →
  Py.has_chr "." t = false →
  String.length p < fuel →
  (∀ q, last_ptr = Some q → q < pos) →
  (∀ pos' g', k pos' "" g' = None) →
  (∀ pos' c s' g', Py.chr_eqb c "." = false → k pos' (String c s') g' = None) →
  k (pos + String.length p) (String "." t) g = Some a →
  Re.until (Re.run Re.RAny) true 0 None fuel count last_ptr pos (p +:+ String "." t) g k
  = Some a.
Proof.
  intros Hnl Hdot Hfuel Hptr Hend Hother Hk. revert fuel count last_ptr pos Hnl Hfuel Hptr Hk.
  induction p as [|c p IH]; intros fuel count last_ptr pos Hnl Hfuel Hptr Hk;
    (destruct fuel as [|fuel]; [simpl in Hfuel; lia|]); rewrite until_step;
    change (count <? 0) with false; cbv iota zeta;
    rewrite (same_ptr_behind _ _ Hptr); simpl Re.allows_more; simpl negb; simpl andb; cbv iota.
  - rewrite app_empty_l. rewrite run_any_cons by done.
    rewrite star_any_no_dot by done. unfold Re.first_of.
    simpl in Hk. by rewrite Nat.add_0_r in Hk.
  - rewrite app_cons. simpl in Hnl. apply orb_false_iff in Hnl as [Hc Hnl].
    rewrite (run_any_cons _ _ _ _ _ Hc).
    rewrite (IH fuel (S count) (Some pos) (S pos)); [done|done|simpl in Hfuel; lia| |].
    + intros q [= <-]. lia.
    + simpl in Hk. by replace (S pos + String.length p) with (pos + S (String.length p)) by lia.
Qed.

Lemma run_publisher_tail (t : string) (pos : nat) (g : Re.groups) :
  Py.has_chr "010" t = false →
  2 ≤ String.length t →
  Re.run PUBLISHER_TAIL pos (String "." t) g Re.accept = Some (S pos + String.length t, g).
Proof.
  intros Hnl Hlen.
  change (Re.run PUBLISHER_TAIL pos (String "." t) g Re.accept)
    with (Re.until (Re.run Re.RAny) true 2 (Some 20) (2 + String.length t + 3) 0 None (S pos) t g
            (λ pos' s' g',
               Re.run (Re.RSeq (Re.RRep 0 None true Re.RAny) Re.REol) pos' s' g' Re.accept)).
  apply some_any_to_end; [done|lia|done|lia].
Qed.

Lemma chr_eqb_sym (a b : ascii) : Py.chr_eqb a b = Py.chr_eqb b a.
Proof. apply Ascii.eqb_sym. Qed.

Lemma run_seq_lit_miss (c a : ascii) (r : Re.regex) (pos : nat) (s : string) (g : Re.groups)
    (k : Re.cont) :
  Py.chr_eqb c a = false → Re.run (Re.RSeq (Re.RLit c) r) pos (String a s) g k = None.
Proof.
  intros H.
  change (Re.run (Re.RSeq (Re.RLit c) r) pos (String a s) g k)
    with (if Py.chr_eqb c a then Re.run r (S pos) s g k else None).
  by rewrite H.
Qed.

(** Group 2 and what follows it, on a text [p.t] whose last part has no dot
    and at least two characters: the group takes [p]. *)
Lemma run_publisher_rest (p t : string) (pos : nat) (g : Re.groups) :
  Py.has_chr "010" p = false →
  Py.has_chr "010" t = false →
  Py.has_chr "." t = false →
  2 ≤ String.length t →
  Re.run (Re.RSeq (Re.RGroup 2 (Re.RRep 0 None true Re.RAny)) PUBLISHER_TAIL)
    pos (p +:+ String "." t) g Re.accept
  = Some (S (pos + String.length p) + String.length t, <[2 := (pos, pos + String.length p)]> g).
Proof.
  intros Hp Ht Hdot Hlen.
  change (Re.run (Re.RSeq (Re.RGroup 2 (Re.RRep 0 None true Re.RAny)) PUBLISHER_TAIL)
            pos (p +:+ String "." t) g Re.accept)
    with (Re.until (Re.run Re.RAny) true 0 None (0 + String.length (p +:+ String "." t) + 3)
            0 None pos (p +:+ String "." t) g
            (λ pos' s' g', Re.run PUBLISHER_TAIL pos' s' (<[2 := (pos, pos')]> g') Re.accept)).
  apply star_any_last_dot; try done.
  - rewrite length_app_str. lia.
  - intros pos' c s' g' Hc. apply run_seq_lit_miss. by rewrite chr_eqb_sym.
  - by apply run_publisher_tail.
Qed.

Lemma substring_prefix (p rest : string) :
  String.substring 0 (String.length p) (p +:+ rest) = p.
Proof.
  induction p as [|c p IH]; simpl; [by destruct rest|]. by rewrite IH.
Qed.

(** The publisher of a seed [scheme://p.t]: the text [p] before the last
    dot. *)
Lemma url_publisher_before_last_dot (scheme p t : string) :
  scheme = "http" ∨ scheme = "https" →
  Py.has_chr "010" p = false →
  Py.has_chr "010" t = false →
  Py.has_chr "." t = false →
  2 ≤ String.length t →
  url_publisher (scheme +:+ "://" +:+ p +:+ "." +:+ t) = Some p.
Proof.
  intros Hscheme Hp Ht Hdot Hlen. unfold url_publisher. rewrite parse_publisher_pattern.
  unfold Re.search.
  change ("." +:+ t) with (String "." t).
  pose proof (run_publisher_rest p t 7 (<[1 := (0, 4)]> ∅) Hp Ht Hdot Hlen) as H7.
  pose proof (run_publisher_rest p t 8 (<[1 := (0, 5)]> ∅) Hp Ht Hdot Hlen) as H8.
  destruct Hscheme as [-> | ->].
  - assert (Hrun : Re.run PUBLISHER_REGEX 0 ("http" +:+ "://" +:+ p +:+ String "." t) ∅ Re.accept
                   = Some (S (7 + String.length p) + String.length t,
                           <[2 := (7, 7 + String.length p)]> (<[1 := (0, 4)]> ∅))).
    { change (Re.run PUBLISHER_REGEX 0 ("http" +:+ "://" +:+ p +:+ String "." t) ∅ Re.accept)
        with (Re.first_of
                (Re.run (Re.RSeq (Re.RGroup 2 (Re.RRep 0 None true Re.RAny)) PUBLISHER_TAIL)
                   7 (p +:+ String "." t) (<[1 := (0, 4)]> ∅) Re.accept) None).
      by rewrite H7. }
    assert (Hsearch : Re.search_from PUBLISHER_REGEX 0 ("http" +:+ "://" +:+ p +:+ String "." t)
                      = Some (0, (S (7 + String.length p) + String.length t,
                                  <[2 := (7, 7 + String.length p)]> (<[1 := (0, 4)]> ∅)))).
    { change ("http" +:+ "://" +:+ p +:+ String "." t)
        with (String "h" ("ttp://" +:+ p +:+ String "." t)) in *.
      unfold Re.search_from. by rewrite Hrun. }
    rewrite Hsearch. simpl. unfold Re.group. simpl.
    rewrite lookup_insert_ne by done. rewrite lookup_insert_eq. simpl.
    replace (String.length p - 0) with (String.length p) by lia.
    by rewrite app_empty_l, substring_prefix.
  - assert (Hrun : Re.run PUBLISHER_REGEX 0 ("https" +:+ "://" +:+ p +:+ String "." t) ∅ Re.accept
                   = Some (S (8 + String.length p) + String.length t,
                           <[2 := (8, 8 + String.length p)]> (<[1 := (0, 5)]> ∅))).
    { rewrite <- H8. reflexivity. }
    assert (Hsearch : Re.search_from PUBLISHER_REGEX 0 ("https" +:+ "://" +:+ p +:+ String "." t)
                      = Some (0, (S (8 + String.length p) + String.length t,
                                  <[2 := (8, 8 + String.length p)]> (<[1 := (0, 5)]> ∅)))).
    { change ("https" +:+ "://" +:+ p +:+ String "." t)
        with (String "h" ("ttps://" +:+ p +:+ String "." t)) in *.
      unfold Re.search_from. by rewrite Hrun. }
    rewrite Hsearch. simpl. unfold Re.group. simpl.
    rewrite lookup_insert_ne by done. rewrite lookup_insert_eq. simpl.
    replace (String.length p - 0) with (String.length p) by lia.
    by rewrite app_empty_l, substring_prefix.
Qed.

Lemma last_map_lower (l : list string) :
  List.last (map Py.lower l) "" = Py.lower (List.last l "").
Proof.
  induction l as [|x l IH]; [done|]. destruct l as [|y l]; [done|]. exact IH.
Qed.

Lemma story_pattern_holds_token (token : string) : substring_of token (story_pattern token).
Proof. by exists "^(http|https)://.*", "[\.\w\-]*/.+/?$". Qed.

(** C4, as the code has it: for a seed [scheme://p.t] whose last part [t],
    after the last dot, has at least two characters, the token is the
    lower-cased last dot-separated segment of [p], the text between [://] and
    the last dot of the URL, path included; [get_links] pastes that token into
    the pattern it compiles. *)
Theorem publisher_token_before_last_dot (beyond : regex_oracle) (w : web)
    (filter_list : list string) (scheme p t : string) :
  scheme = "http" ∨ scheme = "https" →
  Py.has_chr "010" p = false →
  Py.has_chr "010" t = false →
  Py.has_chr "." t = false →
  2 ≤ String.length t →
  Py.strip p ≠ "" →
  let seed := scheme +:+ "://" +:+ p +:+ "." +:+ t in
  let token := Py.lower (List.last (Py.split "." p) "") in
  publisher_token seed = Some token
  ∧ get_links beyond w seed filter_list
    = default [] (pattern_story ← compile beyond (story_pattern token);
                  collect_links w seed pattern_story (map Py.lower (Py.split "." p)) filter_list)
  ∧ substring_of token (story_pattern token).
Proof.
  intros Hscheme Hp Ht Hdot Hlen Hstrip seed token.
  pose proof (url_publisher_before_last_dot scheme p t Hscheme Hp Ht Hdot Hlen) as Hpub.
  fold seed in Hpub. apply String.eqb_neq in Hstrip.
  unfold publisher_token, get_links. rewrite Hpub. simpl. rewrite Hstrip.
  rewrite last_map_lower. fold token.
  split; [done|]. split; [done|]. apply story_pattern_holds_token.
Qed.

Lemma publisher_token_before_last_dot_witness :
  publisher_token "http://news.example.com" = Some "example"
  ∧ get_links (λ _, None) Sample.news "http://news.example.com" []
    = default [] (pattern_story ← compile (λ _, None) (story_pattern "example");
                  collect_links Sample.news "http://news.example.com" pattern_story
                    ["news"; "example"] [])
  ∧ substring_of "example" (story_pattern "example").
Proof.
  apply (publisher_token_before_last_dot (λ _, None) Sample.news [] "http" "news.example" "com");
    [by left|reflexivity|reflexivity|reflexivity|simpl; lia|discriminate].
Defined.

(** C4 as stated fails: for [http://news.example.com] the last label of the
    host is [com], and the token is [example]. *)
Lemma publisher_token_is_not_last_host_label :
  last_host_label "http://news.example.com" = "com"
  ∧ publisher_token "http://news.example.com" = Some "example"
  ∧ publisher_token "http://news.example.com"
    ≠ Some (last_host_label "http://news.example.com").
Proof. vm_compute. repeat split; [reflexivity..|discriminate]. Qed.

(** With a path, the token reaches into the path. *)
Lemma publisher_token_with_path :
  publisher_token "http://news.example.com/index.html" = Some "com/index".
Proof. reflexivity. Qed.

(** ** The story pattern for a token without special characters *)

Lemma parse_items_plain_chr (c : ascii) (s : string) (fuel ng : nat) (items : list Re.regex) :
  special c = false →
  Re.parse_items (S fuel) ng (String c s) items = Re.parse_items fuel ng s (Re.RLit c :: items).
Proof.
  destruct c as [[] [] [] [] [] [] [] []]; intros H; try discriminate H; reflexivity.
Qed.

Lemma parse_items_plain (token rest : string) (fuel ng : nat) (items : list Re.regex) :
  plain token = true →
  Re.parse_items (String.length token + fuel) ng (token +:+ rest) items
  = Re.parse_items fuel ng rest (literals token items).
Proof.
  revert items. induction token as [|c token IH]; intros items Hplain; [done|].
  simpl in Hplain. apply andb_true_iff in Hplain as [Hc Hplain].
  apply negb_true_iff in Hc. rewrite app_cons.
  change (String.length (String c token) + fuel) with (S (String.length token + fuel)).
  rewrite parse_items_plain_chr by done. by apply IH.
Qed.

Lemma run_lit_some (c : ascii) (pos : nat) (s : string) (g : Re.groups) (k : Re.cont)
    (a : Re.answer) :
  Re.run (Re.RLit c) pos s g k = Some a → ∃ s', s = String c s' ∧ k (S pos) s' g = Some a.
Proof.
  destruct s as [|b s]; [done|].
  change (Re.run (Re.RLit c) pos (String b s) g k)
    with (if Py.chr_eqb c b then k (S pos) s g else None).
  destruct (Py.chr_eqb c b) eqn:E; [|done]. apply Ascii.eqb_eq in E as ->. eauto.
Qed.

Lemma run_seq_lit_some (c : ascii) (r : Re.regex) (pos : nat) (s : string) (g : Re.groups)
    (k : Re.cont) (a : Re.answer) :
  Re.run (Re.RSeq (Re.RLit c) r) pos s g k = Some a
  → ∃ s', s = String c s' ∧ Re.run r (S pos) s' g k = Some a.
Proof.
  change (Re.run (Re.RSeq (Re.RLit c) r) pos s g k)
    with (Re.run (Re.RLit c) pos s g (λ pos' s' g', Re.run r pos' s' g' k)).
  apply run_lit_some.
Qed.

(** A pattern that begins like the story pattern matches only links that
    begin with one of the two schemes. *)
Lemma match_scheme (rest : Re.regex) (link : string) :
  is_Some (Re.match_ (with_scheme rest) link)
  → Py.startswith "http://" link = true ∨ Py.startswith "https://" link = true.
Proof.
  unfold Re.match_, with_scheme, SCHEME. intros [m Hm].
  match type of Hm with context [Re.run ?r 0 link ∅ Re.accept] =>
    destruct (Re.run r 0 link ∅ Re.accept) as [a|] eqn:Hrun; [clear Hm|done]
  end.
  match type of Hrun with
    Re.run (Re.RSeq Re.RBol (Re.RSeq (Re.RGroup 1 (Re.RAlt ?http ?https)) ?tail)) _ _ _ _ = _ =>
      change (Re.first_of
                (Re.run http 0 link ∅
                   (λ pos' s' g', Re.run tail pos' s' (<[1 := (0, pos')]> g') Re.accept))
                (Re.run https 0 link ∅
                   (λ pos' s' g', Re.run tail pos' s' (<[1 := (0, pos')]> g') Re.accept))
              = Some a) in Hrun
  end.
  unfold Re.first_of in Hrun.
  match type of Hrun with match ?x with _ => _ end = _ => destruct x as [b|] eqn:Hhttp end.
  - left. clear Hrun.
    apply run_seq_lit_some in Hhttp as (s1 & -> & H).
    apply run_seq_lit_some in H as (s2 & -> & H).
    apply run_seq_lit_some in H as (s3 & -> & H).
    apply run_lit_some in H as (s4 & -> & H). cbv beta in H.
    apply run_seq_lit_some in H as (s5 & -> & H).
    apply run_seq_lit_some in H as (s6 & -> & H).
    apply run_seq_lit_some in H as (s7 & -> & H).
    reflexivity.
  - right. clear Hhttp.
    apply run_seq_lit_some in Hrun as (s1 & -> & H).
    apply run_seq_lit_some in H as (s2 & -> & H).
    apply run_seq_lit_some in H as (s3 & -> & H).
    apply run_seq_lit_some in H as (s4 & -> & H).
    apply run_lit_some in H as (s5 & -> & H). cbv beta in H.
    apply run_seq_lit_some in H as (s6 & -> & H).
    apply run_seq_lit_some in H as (s7 & -> & H).
    apply run_seq_lit_some in H as (s8 & -> & H).
    reflexivity.
Qed.

Lemma special_question_plus (c : ascii) :
  special c = false → Py.chr_eqb c "?" = false ∧ Py.chr_eqb c "+" = false.
Proof. by destruct c as [[] [] [] [] [] [] [] []]. Qed.

Lemma parse_items_bol (s : string) (fuel ng : nat) (items : list Re.regex) :
  Re.parse_items (S fuel) ng (String "^" s) items = Re.parse_items fuel ng s (Re.RBol :: items).
Proof. reflexivity. Qed.

Lemma parse_items_any (s : string) (fuel ng : nat) (items : list Re.regex) :
  Re.parse_items (S fuel) ng (String "." s) items = Re.parse_items fuel ng s (Re.RAny :: items).
Proof. reflexivity. Qed.

Lemma parse_sub_scheme (s : string) (fuel : nat) :
  Re.parse_sub (13 + fuel) 1 ("http|https)" +:+ s)
  = Re.Parsed
      (Re.RAlt
         (Re.RSeq (Re.RLit "h") (Re.RSeq (Re.RLit "t") (Re.RSeq (Re.RLit "t") (Re.RLit "p"))))
         (Re.RSeq (Re.RLit "h")
            (Re.RSeq (Re.RLit "t")
               (Re.RSeq (Re.RLit "t") (Re.RSeq (Re.RLit "p") (Re.RLit "s"))))),
       1, String ")" s).
Proof. vm_compute. reflexivity. Qed.

Lemma parse_items_group (s : string) (fuel ng : nat) (items : list Re.regex) :
  Re.parse_items (S fuel) ng (String "(" s) items
  = if Py.startswith "?" s then Re.Beyond
    else
      Re.parse_sub fuel (S ng) s ≫= λ '(r, ng', rest),
        match rest with
        | String d rest' =>
            if Py.chr_eqb d ")"
            then Re.parse_items fuel ng' rest' (Re.RGroup (S ng) r :: items)
            else Re.Error
        | EmptyString => Re.Error
        end.
Proof. reflexivity. Qed.

Lemma parse_items_scheme (s : string) (fuel : nat) (items : list Re.regex) :
  Re.parse_items (S (13 + fuel)) 0 ("(http|https)" +:+ s) items
  = Re.parse_items (13 + fuel) 1 s (SCHEME :: items).
Proof.
  change ("(http|https)" +:+ s) with (String "(" ("http|https)" +:+ s)).
  rewrite parse_items_group, parse_sub_scheme.
  change (Py.startswith "?" ("http|https)" +:+ s)) with false.
  reflexivity.
Qed.

Lemma parse_items_star_any (c : ascii) (s : string) (fuel ng : nat) (before : list Re.regex) :
  Py.chr_eqb c "?" = false →
  Py.chr_eqb c "+" = false →
  Re.parse_items (S fuel) ng (String "*" (String c s)) (Re.RAny :: before)
  = Re.parse_items fuel ng (String c s) (Re.RRep 0 None true Re.RAny :: before).
Proof.
  intros H1 H2.
  change (Re.parse_items (S fuel) ng (String "*" (String c s)) (Re.RAny :: before))
    with (Re.repeat_last (Re.RAny :: before) 0 None (String c s)
          ≫= λ '(items', rest'), Re.parse_items fuel ng rest' items').
  unfold Re.repeat_last. simpl Re.is_at. simpl Re.is_repeat. cbv iota.
  by rewrite H1, H2.
Qed.

Lemma parse_story_head (c : ascii) (rest : string) (fuel : nat) :
  special c = false →
  Re.parse_items (15 + fuel) 0 ("^(http|https)://.*" +:+ String c rest) []
  = Re.parse_items (8 + fuel) 1 (String c rest)
      [Re.RRep 0 None true Re.RAny; Re.RLit "/"; Re.RLit "/"; Re.RLit ":"; SCHEME; Re.RBol].
Proof.
  intros [Hq Hp]%special_question_plus.
  change ("^(http|https)://.*" +:+ String c rest)
    with (String "^" ("(http|https)" +:+ String ":" (String "/" (String "/"
            (String "." (String "*" (String c rest))))))).
  change (15 + fuel) with (S (S (13 + fuel))). rewrite parse_items_bol, parse_items_scheme.
  change (13 + fuel) with (S (S (S (S (S (8 + fuel)))))).
  rewrite !parse_items_plain_chr by done.
  by rewrite parse_items_any, parse_items_star_any.
Qed.

Lemma parse_story_tail (fuel : nat) (items : list Re.regex) :
  Re.parse_items (10 + fuel) 1 "[\.\w\-]*/.+/?$" items
  = Re.Parsed (foldl Re.seq_step STORY_TAIL items, 1, "").
Proof. vm_compute. reflexivity. Qed.

Lemma parse_sub_single (fuel ng ng' : nat) (s : string) (r : Re.regex) :
  Re.parse_items fuel ng s [] = Re.Parsed (r, ng', "") →
  Re.parse_sub (S fuel) ng s = Re.Parsed (r, ng', "").
Proof.
  intros H.
  change (Re.parse_sub (S fuel) ng s)
    with (Re.parse_items fuel ng s [] ≫= λ '(r, ng', rest),
            match rest with
            | String c rest' =>
                if Py.chr_eqb c "|" then
                  Re.parse_sub fuel ng' rest' ≫= λ '(r2, ng'', rest''),
                    Re.Parsed (Re.RAlt r r2, ng'', rest'')
                else Re.Parsed (r, ng', rest)
            | EmptyString => Re.Parsed (r, ng', rest)
            end).
  by rewrite H.
Qed.

Lemma fold_literals (token : string) (acc : Re.regex) (items : list Re.regex) :
  acc ≠ Re.REmpty →
  ∃ acc', acc' ≠ Re.REmpty
          ∧ foldl Re.seq_step acc (literals token items) = foldl Re.seq_step acc' items.
Proof.
  revert items. induction token as [|c token IH]; intros items Hacc; simpl; [by exists acc|].
  destruct (IH (Re.RLit c :: items) Hacc) as (acc' & Hacc' & ->).
  exists (Re.RSeq (Re.RLit c) acc'). split; [done|]. simpl. by destruct acc'.
Qed.

(** The story pattern of a token without special characters begins with the
    scheme. *)
Lemma parse_story_pattern (token : string) :
  plain token = true → ∃ rest, Re.parse (story_pattern token) = Re.Parsed (with_scheme rest).
Proof.
  intros Hplain. destruct token as [|c token].
  { exists (Re.RSeq (Re.RRep 0 None true Re.RAny) STORY_TAIL). vm_compute. reflexivity. }
  pose proof Hplain as Hplain'. simpl in Hplain'.
  apply andb_true_iff in Hplain' as [Hc _]. apply negb_true_iff in Hc.
  set (n := String.length (String c token)).
  destruct (fold_literals (String c token) STORY_TAIL
              [Re.RRep 0 None true Re.RAny; Re.RLit "/"; Re.RLit "/"; Re.RLit ":"; SCHEME; Re.RBol])
    as (acc & Hacc & Hfold); [done|].
  exists (Re.RSeq (Re.RRep 0 None true Re.RAny) acc).
  assert (Hitems : Re.parse_items (15 + (n + 54 + n)) 0 (story_pattern (String c token)) []
                   = Re.Parsed (with_scheme (Re.RSeq (Re.RRep 0 None true Re.RAny) acc), 1, "")).
  { unfold story_pattern. rewrite (app_cons c token). rewrite parse_story_head by done.
    replace (8 + (n + 54 + n)) with (n + (10 + (n + 52))) by lia.
    rewrite <- (app_cons c token). unfold n. rewrite parse_items_plain by done.
    rewrite parse_story_tail, Hfold. simpl. by destruct acc. }
  unfold Re.parse.
  replace (2 * String.length (story_pattern (String c token)) + 4)
    with (S (15 + (n + 54 + n))).
  2:{ unfold story_pattern, n. rewrite !length_app_str.
      change (String.length "^(http|https)://.*") with 18.
      change (String.length "[\.\w\-]*/.+/?$") with 15. lia. }
  by rewrite (parse_sub_single _ _ _ _ _ Hitems).
Qed.

Lemma publisher_token_spec (seed token : string) :
  publisher_token seed = Some token
  → ∃ publisher,
      url_publisher seed = Some publisher
      ∧ token = List.last (map Py.lower (Py.split "." publisher)) "".
Proof.
  unfold publisher_token. destruct (url_publisher seed) as [publisher|]; [|done].
  change (Some publisher ≫= λ url_publisher : string,
            if String.eqb (Py.strip url_publisher) "" then None
            else Some (List.last (map Py.lower (Py.split "." url_publisher)) ""))
    with (if String.eqb (Py.strip publisher) "" then None
          else Some (List.last (map Py.lower (Py.split "." publisher)) "")).
  destruct (String.eqb (Py.strip publisher) ""); [done|].
  intros [= <-]. by exists publisher.
Qed.

Lemma compile_parsed (beyond : regex_oracle) (source : string) (r : Re.regex) :
  Re.parse source = Re.Parsed r →
  compile beyond source = Some (λ link, bool_decide (is_Some (Re.match_ r link))).
Proof. intros H. unfold compile. by rewrite H. Qed.

Lemma compile_plain_token (beyond : regex_oracle) (token link : string)
    (pattern_story : string → bool) :
  plain token = true →
  compile beyond (story_pattern token) = Some pattern_story →
  pattern_story link = true →
  Py.startswith "http://" link = true ∨ Py.startswith "https://" link = true.
Proof.
  intros Hplain Hcompile Hmatch.
  destruct (parse_story_pattern token Hplain) as (rest & Hparse).
  rewrite (compile_parsed beyond _ _ Hparse) in Hcompile.
  injection Hcompile as <-. apply bool_decide_eq_true in Hmatch.
  exact (match_scheme rest link Hmatch).
Qed.

(** X1: for a seed whose token has no special character, every link [get_links]
    returns begins with [http://] or [https://]. *)
Lemma get_links_scheme_plain_token (beyond : regex_oracle) (w : web) (seed token : string)
    (filter_list : list string) (link : string) :
  publisher_token seed = Some token →
  plain token = true →
  link ∈ get_links beyond w seed filter_list →
  Py.startswith "http://" link = true ∨ Py.startswith "https://" link = true.
Proof.
  intros (publisher' & Hpub' & ->)%publisher_token_spec Hplain
         (publisher & pattern_story & a & Hpub & Hcompile & _ & Hmatch & _)%get_links_spec.
  rewrite Hpub' in Hpub. injection Hpub as <-.
  exact (compile_plain_token beyond _ link pattern_story Hplain Hcompile Hmatch).
Qed.

Lemma sample_token_plain :
  publisher_token Sample.seed = Some "example" ∧ plain "example" = true.
Proof. vm_compute. split; reflexivity. Qed.

(** * Further properties *)

(** ** Link discovery *)

Lemma get_links_scheme_plain_token_witness :
  Py.startswith "http://" Sample.story = true ∨ Py.startswith "https://" Sample.story = true.
Proof.
  apply (get_links_scheme_plain_token (λ _, None) Sample.news Sample.seed "example" []).
  - vm_compute. reflexivity.
  - reflexivity.
  - vm_compute. apply list_elem_of_here.
Defined.

(** X2: every link [get_links] returns holds one of the lower-cased labels of
    the seed's publisher part. *)
Theorem get_links_holds_publisher_label (beyond : regex_oracle) (w : web) (seed : string)
    (filter_list : list string) (link : string) :
  link ∈ get_links beyond w seed filter_list →
  ∃ publisher label,
    url_publisher seed = Some publisher
    ∧ label ∈ map Py.lower (Py.split "." publisher)
    ∧ substring_of label link.
Proof.
  intros (publisher & pattern_story & a & Hpub & _ & _ & _ & Hlabel & _)%get_links_spec.
  apply any_in_spec in Hlabel as [Hlabel|(label & Hin & Hc)]; [done|].
  exists publisher, label. split; [done|]. split; [done|]. by apply contains_spec.
Qed.

Lemma get_links_holds_publisher_label_witness :
  ∃ publisher label,
    url_publisher Sample.seed = Some publisher
    ∧ label ∈ map Py.lower (Py.split "." publisher)
    ∧ substring_of label Sample.story.
Proof.
  apply (get_links_holds_publisher_label (λ _, None) Sample.news Sample.seed []).
  vm_compute. apply list_elem_of_here.
Defined.

Lemma visit_anchor_passes (pattern_story : string → bool) (publishers filter_list links : list string)
    (a : Html.node) :
  visit_anchor pattern_story publishers filter_list links a
  = links ++ List.filter (passes pattern_story publishers filter_list)
               [Py.lower (default "" (Html.get "href" a))].
Proof.
  unfold visit_anchor, passes. cbn [List.filter].
  destruct (pattern_story _); cbn [andb]; [|by rewrite app_nil_r].
  destruct (any_in publishers _ false); cbn [andb]; [|by rewrite app_nil_r].
  destruct (0 <? length filter_list).
  - destruct (any_in filter_list _ false); [done|by rewrite app_nil_r].
  - done.
Qed.

Lemma visit_anchors_filter (pattern_story : string → bool) (publishers filter_list : list string)
    (anchors : list Html.node) (links : list string) :
  foldl (visit_anchor pattern_story publishers filter_list) links anchors
  = links ++ List.filter (passes pattern_story publishers filter_list)
               (map (λ a, Py.lower (default "" (Html.get "href" a))) anchors).
Proof.
  revert links. induction anchors as [|a anchors IH]; intros links; simpl.
  - by rewrite app_nil_r.
  - rewrite IH, visit_anchor_passes. cbn [List.filter].
    destruct (passes _ _ _ _); by rewrite <- app_assoc.
Qed.

(** X3: when [get_links] reaches the page, it returns the lower-cased [href]s
    of the anchors of the body that pass the three tests, in document order
    and with their repetitions. *)
Theorem get_links_is_filter (beyond : regex_oracle) (w : web) (seed : string)
    (filter_list : list string) (publisher : string) (pattern_story : string → bool)
    (soup body : Html.node) :
  url_publisher seed = Some publisher →
  Py.strip publisher ≠ "" →
  compile beyond (story_pattern (List.last (map Py.lower (Py.split "." publisher)) ""))
  = Some pattern_story →
  w seed = Some soup →
  Html.find "body" soup = Some body →
  get_links beyond w seed filter_list
  = List.filter (passes pattern_story (map Py.lower (Py.split "." publisher)) filter_list)
      (hrefs body).
Proof.
  intros Hpub Hstrip%String.eqb_neq Hcompile Hw Hbody.
  unfold get_links, collect_links. rewrite Hpub. simpl. rewrite Hstrip.
  rewrite Hcompile. simpl. rewrite Hw. simpl. rewrite Hbody. simpl.
  by rewrite visit_anchors_filter.
Qed.

Lemma get_links_is_filter_witness :
  ∃ pattern_story,
    compile (λ _, None) (story_pattern "example") = Some pattern_story
    ∧ get_links (λ _, None) Sample.two_stories Sample.seed ["politics"]
      = List.filter
          (passes pattern_story (map Py.lower (Py.split "." "news.example")) ["politics"])
          (hrefs (Html.Tag "body" []
                    [Sample.anchor "http://news.example.com/Politics/1";
                     Sample.anchor "http://news.example.com/Sports/2"])).
Proof.
  destruct (parse_story_pattern "example" eq_refl) as [rest Hparse].
  pose proof (compile_parsed (λ _, None) _ _ Hparse) as Hcompile.
  eexists. split; [exact Hcompile|].
  apply (get_links_is_filter (λ _, None) Sample.two_stories Sample.seed ["politics"]
           "news.example" _
           (Sample.page [Sample.title_tag "News"]
              [Sample.anchor "http://news.example.com/Politics/1";
               Sample.anchor "http://news.example.com/Sports/2"])).
  - vm_compute. reflexivity.
  - discriminate.
  - exact Hcompile.
  - reflexivity.
  - reflexivity.
Defined.

Lemma passes_filters (pattern_story : string → bool) (publishers filter_list : list string)
    (link : string) :
  filter_list ≠ [] →
  passes pattern_story publishers filter_list link
  = passes pattern_story publishers [] link && any_in filter_list link false.
Proof.
  intros Hne. unfold passes. destruct filter_list as [|f fl]; [done|].
  change (0 <? length (f :: fl)) with true. change (0 <? length (@nil string)) with false.
  cbv iota. by rewrite andb_true_r.
Qed.

Lemma filter_filter {A} (p q : A → bool) (l : list A) :
  List.filter (λ x, p x && q x) l = List.filter q (List.filter p l).
Proof.
  induction l as [|x l IH]; [done|]. simpl. destruct (p x); simpl; [|done].
  destruct (q x); by rewrite IH.
Qed.

Lemma filter_ext_list {A} (p q : A → bool) (l : list A) :
  (∀ x, p x = q x) → List.filter p l = List.filter q l.
Proof. intros H. induction l as [|x l IH]; [done|]. simpl. by rewrite H, IH. Qed.

Lemma get_links_cases (beyond : regex_oracle) (w : web) (seed : string)
    (filter_list : list string) :
  (get_links beyond w seed filter_list = [] ∧ get_links beyond w seed [] = [])
  ∨ ∃ pattern_story publishers body,
      get_links beyond w seed filter_list
      = List.filter (passes pattern_story publishers filter_list) (hrefs body)
      ∧ get_links beyond w seed []
        = List.filter (passes pattern_story publishers []) (hrefs body).
Proof.
  unfold get_links, collect_links.
  destruct (url_publisher seed) as [publisher|]; simpl; [|by left].
  destruct (String.eqb (Py.strip publisher) ""); simpl; [by left|].
  destruct (compile beyond _) as [pattern_story|]; simpl; [|by left].
  destruct (w seed) as [soup|]; simpl; [|by left].
  destruct (Html.find "body" soup) as [body|]; simpl; [|by left].
  right. exists pattern_story, (map Py.lower (Py.split "." publisher)), body.
  by rewrite !visit_anchors_filter.
Qed.

(** X4: filters only remove links: with a non-empty filter list [get_links]
    returns the links it returns without filters that hold one of the
    filter strings, in the same order. *)
Theorem get_links_filters_only_remove (beyond : regex_oracle) (w : web) (seed : string)
    (filter_list : list string) :
  filter_list ≠ [] →
  get_links beyond w seed filter_list
  = List.filter (λ link, any_in filter_list link false) (get_links beyond w seed []).
Proof.
  intros Hne.
  destruct (get_links_cases beyond w seed filter_list)
    as [[-> ->]|(pattern_story & publishers & body & -> & ->)]; [done|].
  rewrite <- filter_filter. apply filter_ext_list. intros link. by apply passes_filters.
Qed.

Lemma get_links_filters_only_remove_witness :
  get_links (λ _, None) Sample.two_stories Sample.seed ["politics"]
  = List.filter (λ link, any_in ["politics"] link false)
      (get_links (λ _, None) Sample.two_stories Sample.seed []).
Proof.
  apply (get_links_filters_only_remove (λ _, None) Sample.two_stories Sample.seed ["politics"]).
  discriminate.
Defined.

Lemma any_in_blank (filter_list : list string) (link : string) :
  "" ∈ filter_list → any_in filter_list link false = true.
Proof.
  intros H. apply any_in_spec. right. exists "". split; [done|]. by destruct link.
Qed.

Lemma split_strip_not_nil (c : ascii) (text : string) : map Py.strip (Py.split c text) ≠ [].
Proof.
  pose proof (split_not_nil c text) as H. by destruct (Py.split c text).
Qed.

(** X5: a filter argument with a blank piece (an empty argument, a trailing
    comma, two commas in a row) filters nothing: the empty string occurs in
    every link. *)
Theorem blank_filter_filters_nothing (beyond : regex_oracle) (w : web) (seed text : string) :
  "" ∈ parse_filters (Some text) →
  get_links beyond w seed (parse_filters (Some text)) = get_links beyond w seed [].
Proof.
  intros Hblank.
  destruct (get_links_cases beyond w seed (parse_filters (Some text)))
    as [[-> ->]|(pattern_story & publishers & body & -> & ->)]; [done|].
  apply filter_ext_list. intros link.
  rewrite passes_filters by apply split_strip_not_nil.
  by rewrite (any_in_blank _ link Hblank), andb_true_r.
Qed.

Lemma blank_filter_filters_nothing_witness :
  get_links (λ _, None) Sample.two_stories Sample.seed (parse_filters (Some "finance, "))
  = get_links (λ _, None) Sample.two_stories Sample.seed [].
Proof.
  apply (blank_filter_filters_nothing (λ _, None) Sample.two_stories Sample.seed "finance, ").
  vm_compute. apply list_elem_of_further, list_elem_of_here.
Defined.

Lemma rstrip_keeps_head (c : ascii) (s : string) :
  Py.isspace c = false → Py.rstrip (String c s) = String c (Py.rstrip s).
Proof. intros H. simpl. rewrite H. by destruct (Py.rstrip s). Qed.

Lemma rstrip_idempotent (s : string) : Py.rstrip (Py.rstrip s) = Py.rstrip s.
Proof.
  induction s as [|c s IH]; [done|]. simpl.
  destruct (Py.rstrip s) as [|d r] eqn:E.
  - destruct (Py.isspace c) eqn:Ec; [done|]. simpl. by rewrite Ec.
  - change (Py.rstrip (String c (String d r)))
      with (match Py.rstrip (String d r) with
            | EmptyString => if Py.isspace c then EmptyString else String c EmptyString
            | r' => String c r'
            end).
    by rewrite IH.
Qed.

Lemma lstrip_head (s : string) :
  Py.lstrip s = "" ∨ ∃ c t, Py.lstrip s = String c t ∧ Py.isspace c = false.
Proof.
  induction s as [|c s IH]; [by left|]. simpl.
  destruct (Py.isspace c) eqn:E; [done|]. right. by exists c, s.
Qed.

Lemma strip_idempotent (s : string) : Py.strip (Py.strip s) = Py.strip s.
Proof.
  unfold Py.strip. destruct (lstrip_head s) as [->|(c & t & -> & Hc)]; [done|].
  rewrite rstrip_keeps_head by done.
  change (Py.lstrip (String c (Py.rstrip t)))
    with (if Py.isspace c then Py.lstrip (Py.rstrip t) else String c (Py.rstrip t)).
  rewrite Hc. rewrite rstrip_keeps_head by done. by rewrite rstrip_idempotent.
Qed.

(** X6: the filter list made of a [--filter] text has one piece more than the
    text has commas, so it is never empty, and no piece has white space
    around it. *)
Theorem parse_filters_pieces (text : string) :
  length (parse_filters (Some text)) = S (Py.count_chr "," text)
  ∧ ∀ f, f ∈ parse_filters (Some text) → Py.strip f = f.
Proof.
  unfold parse_filters. split.
  - by rewrite length_map, split_length.
  - intros f (piece & -> & _)%list_elem_of_fmap. apply strip_idempotent.
Qed.

(** ** Seeds the publisher pattern rejects *)

Lemma run_with_scheme_later (rest : Re.regex) (pos : nat) (s : string) :
  Re.run (with_scheme rest) (S pos) s ∅ Re.accept = None.
Proof. reflexivity. Qed.

Lemma search_from_later (rest : Re.regex) (s : string) (pos : nat) :
  Re.search_from (with_scheme rest) (S pos) s = None.
Proof.
  revert pos. induction s as [|c s IH]; intros pos.
  - unfold Re.search_from. by rewrite run_with_scheme_later.
  - change (Re.search_from (with_scheme rest) (S pos) (String c s))
      with (match Re.run (with_scheme rest) (S pos) (String c s) ∅ Re.accept with
            | Some a => Some (S pos, a)
            | None => Re.search_from (with_scheme rest) (S (S pos)) s
            end).
    by rewrite run_with_scheme_later, IH.
Qed.

Lemma run_with_scheme_start (rest : Re.regex) (s : string) :
  Py.startswith "http://" s = false →
  Py.startswith "https://" s = false →
  Re.run (with_scheme rest) 0 s ∅ Re.accept = None.
Proof.
  intros H1 H2. destruct (Re.run (with_scheme rest) 0 s ∅ Re.accept) as [[stop g]|] eqn:E; [|done].
  assert (Hm : is_Some (Re.match_ (with_scheme rest) s)).
  { unfold Re.match_. rewrite E. by eexists. }
  apply match_scheme in Hm as [Hm|Hm]; congruence.
Qed.

Lemma url_publisher_needs_scheme (seed : string) :
  Py.startswith "http://" seed = false →
  Py.startswith "https://" seed = false →
  url_publisher seed = None.
Proof.
  intros H1 H2. unfold url_publisher. rewrite parse_publisher_pattern.
  unfold Re.search, PUBLISHER_REGEX.
  assert (Hs : Re.search_from
                 (with_scheme (Re.RSeq (Re.RGroup 2 (Re.RRep 0 None true Re.RAny)) PUBLISHER_TAIL))
                 0 seed = None).
  { destruct seed as [|c s].
    - unfold Re.search_from. by rewrite run_with_scheme_start.
    - change (Re.search_from ?r 0 (String c s))
        with (match Re.run r 0 (String c s) ∅ Re.accept with
              | Some a => Some (0, a)
              | None => Re.search_from r 1 s
              end).
      by rewrite run_with_scheme_start, search_from_later. }
  by rewrite Hs.
Qed.

(** X7: a seed that does not begin with [http://] or [https://] yields no link,
    whatever the web holds: the page is not even fetched. *)
Theorem get_links_needs_scheme (beyond : regex_oracle) (w : web) (seed : string)
    (filter_list : list string) :
  Py.startswith "http://" seed = false →
  Py.startswith "https://" seed = false →
  get_links beyond w seed filter_list = [].
Proof.
  intros H1 H2. unfold get_links. by rewrite (url_publisher_needs_scheme seed H1 H2).
Qed.

Lemma get_links_needs_scheme_witness :
  get_links (λ _, None) (λ _, Some (Sample.page [] [Sample.anchor "http://example.com/a/1"]))
    "ftp://example.com/index" [] = [].
Proof.
  apply (get_links_needs_scheme (λ _, None) _ "ftp://example.com/index" []); reflexivity.
Defined.

(** ** The token *)







(** ** The ledger: what is written is what is loaded *)

(** X9: adding files to the directory never takes a URL out of the set loaded. *)
Theorem urls_crawled_in_dir_mono (d d' : directory) :
  d ⊆ d' → urls_crawled_in_dir d ⊆ urls_crawled_in_dir d'.
Proof.
  intros Hsub x (line & (file & content & Hf & Hl) & Hk)%urls_crawled_in_dir_spec.
  apply urls_crawled_in_dir_spec. exists line. split; [|done].
  exists file, content. split; [|done]. by eapply lookup_weaken.
Qed.

Lemma urls_crawled_in_dir_mono_witness :
  urls_crawled_in_dir {[ Sample.out := RegularFile (Some (Sample.sound_line +:+ NL)) ]}
  ⊆ urls_crawled_in_dir
      (<[ "notes" := RegularFile (Some "oops") ]>
         {[ Sample.out := RegularFile (Some (Sample.sound_line +:+ NL)) ]}).
Proof.
  apply urls_crawled_in_dir_mono. apply insert_subseteq. by apply lookup_singleton_ne.
Defined.

Lemma ledger_line_body (date : string) (r : result) :
  ledger_line date r = line_body date r +:+ NL.
Proof. unfold ledger_line, line_body. by rewrite !app_assoc_str. Qed.

Lemma line_safe_spec (s : string) :
  line_safe s = true
  ↔ Py.has_chr SEP s = false ∧ Py.has_chr "010" s = false ∧ Py.has_chr "013" s = false.
Proof.
  unfold line_safe. rewrite !andb_true_iff, !negb_true_iff. tauto.
Qed.

Lemma clean_spec (date : string) (r : result) :
  clean date r = true
  ↔ line_safe date = true ∧ line_safe (url r) = true
    ∧ line_safe (Py.str_of (title r)) = true ∧ line_safe (body r) = true.
Proof. unfold clean. rewrite !andb_true_iff. tauto. Qed.

Lemma line_body_fields (date : string) (r : result) :
  clean date r = true →
  Py.split SEP (line_body date r)
  = ["locationLong"; "locationLat"; "spider"; date; url r; "userName"; "screenName";
     "<title>" +:+ Py.str_of (title r) +:+ "</title><body>" +:+ body r +:+ "</body>"].
Proof.
  intros (Hd & Hu & Ht & Hb)%clean_spec.
  apply line_safe_spec in Hd as (Hd & _), Hu as (Hu & _), Ht as (Ht & _), Hb as (Hb & _).
  destruct (ledger_line_fields date r Hd Hu Ht Hb) as (line & Hline & Hsplit & _).
  rewrite ledger_line_body in Hline.
  assert (line_body date r = line) as ->; [|done].
  clear -Hline. revert Hline. generalize (line_body date r). intros s.
  revert line. induction s as [|c s IH]; intros [|c' line]; simpl; try done.
  - intros [= ? H]. by destruct line.
  - intros [= ? H]. by destruct s.
  - intros [= ? H]. subst. by rewrite (IH line H).
Qed.

Lemma universal_newlines_id (s : string) :
  Py.has_chr "013" s = false → Py.universal_newlines s = s.
Proof.
  induction s as [|c s IH]; [done|]. simpl. intros [Hc Hs]%orb_false_iff.
  rewrite Hc. by rewrite (IH Hs).
Qed.

Lemma readlines_line (line rest : string) :
  Py.has_chr "010" line = false →
  Py.readlines (line +:+ NL +:+ rest) = (line +:+ NL) :: Py.readlines rest.
Proof.
  induction line as [|c line IH]; [done|]. simpl. intros [Hc Hl]%orb_false_iff.
  rewrite Hc. by rewrite (IH Hl).
Qed.

Lemma rstrip_app (s t : string) :
  Py.rstrip t ≠ "" → Py.rstrip (s +:+ t) = s +:+ Py.rstrip t.
Proof.
  intros Ht. induction s as [|c s IH]; [done|].
  change (Py.rstrip (String c s +:+ t))
    with (match Py.rstrip (s +:+ t) with
          | EmptyString => if Py.isspace c then EmptyString else String c EmptyString
          | r => String c r
          end).
  rewrite IH. rewrite app_cons. destruct (s +:+ Py.rstrip t) eqn:E; [|done].
  destruct s; [|done]. by rewrite app_empty_l in E.
Qed.

(** Stripping a written line takes the line feed off and nothing else. *)
Lemma strip_ledger_line (date : string) (r : result) :
  Py.strip (ledger_line date r) = line_body date r.
Proof.
  rewrite ledger_line_body. unfold Py.strip.
  change (Py.lstrip (line_body date r +:+ NL)) with (line_body date r +:+ NL).
  set (front := "locationLong^locationLat^spider^" +:+ date +:+ "^" +:+ url r
                +:+ "^userName^screenName^<title>" +:+ Py.str_of (title r)
                +:+ "</title><body>" +:+ body r).
  assert (Hbody : line_body date r = front +:+ "</body>").
  { unfold line_body, front. by rewrite !app_assoc_str. }
  rewrite Hbody, app_assoc_str. rewrite rstrip_app; [done|discriminate].
Qed.

Lemma line_body_has_lf (date : string) (r : result) :
  Py.has_chr "010" (line_body date r)
  = Py.has_chr "010" date || Py.has_chr "010" (url r)
    || Py.has_chr "010" (Py.str_of (title r)) || Py.has_chr "010" (body r).
Proof.
  unfold line_body. rewrite !has_chr_app.
  change (Py.has_chr "010" "locationLong^locationLat^spider^") with false.
  change (Py.has_chr "010" "^") with false.
  change (Py.has_chr "010" "^userName^screenName^<title>") with false.
  change (Py.has_chr "010" "</title><body>") with false.
  change (Py.has_chr "010" "</body>") with false.
  cbn [orb]. rewrite ?orb_false_r. by rewrite ?orb_assoc.
Qed.

Lemma line_body_has_cr (date : string) (r : result) :
  Py.has_chr "013" (line_body date r)
  = Py.has_chr "013" date || Py.has_chr "013" (url r)
    || Py.has_chr "013" (Py.str_of (title r)) || Py.has_chr "013" (body r).
Proof.
  unfold line_body. rewrite !has_chr_app.
  change (Py.has_chr "013" "locationLong^locationLat^spider^") with false.
  change (Py.has_chr "013" "^") with false.
  change (Py.has_chr "013" "^userName^screenName^<title>") with false.
  change (Py.has_chr "013" "</title><body>") with false.
  change (Py.has_chr "013" "</body>") with false.
  cbn [orb]. rewrite ?orb_false_r. by rewrite ?orb_assoc.
Qed.

Lemma ledger_text_clean (entries : list (string * result)) :
  Forall (λ e, clean e.1 e.2 = true) entries →
  Py.has_chr "013" (ledger_text entries) = false.
Proof.
  induction 1 as [|[date r] entries (Hd & Hu & Ht & Hb)%clean_spec _ IH]; [done|].
  apply line_safe_spec in Hd as (_ & _ & Hd), Hu as (_ & _ & Hu),
      Ht as (_ & _ & Ht), Hb as (_ & _ & Hb).
  cbn [ledger_text foldr fst snd]. fold (ledger_text entries).
  rewrite has_chr_app, IH, ledger_line_body, has_chr_app, line_body_has_cr.
  cbn [fst snd] in *. by rewrite Hd, Hu, Ht, Hb.
Qed.

(** The lines the loader sees in a ledger made of clean lines. *)
Lemma stripped_lines_ledger_text (entries : list (string * result)) :
  Forall (λ e, clean e.1 e.2 = true) entries →
  stripped_lines (ledger_text entries) = map (λ e, line_body e.1 e.2) entries.
Proof.
  intros Hclean. unfold stripped_lines.
  rewrite universal_newlines_id by by apply ledger_text_clean.
  induction Hclean as [|[date r] entries Hc _ IH]; [done|].
  pose proof Hc as (Hd & Hu & Ht & Hb)%clean_spec.
  apply line_safe_spec in Hd as (_ & Hd & _), Hu as (_ & Hu & _),
      Ht as (_ & Ht & _), Hb as (_ & Hb & _).
  cbn [ledger_text foldr map fst snd]. fold (ledger_text entries).
  rewrite ledger_line_body, app_assoc_str. rewrite readlines_line.
  - cbn [map]. rewrite IH. f_equal. rewrite <- ledger_line_body. apply strip_ledger_line.
  - rewrite line_body_has_lf. cbn [fst snd] in *. by rewrite Hd, Hu, Ht, Hb.
Qed.

Lemma leading_well_formed_all (lines : list string) :
  Forall (λ line, well_formed line = true) lines → leading_well_formed lines = lines.
Proof. induction 1 as [|line lines H _ IH]; [done|]. simpl. by rewrite H, IH. Qed.

Lemma line_body_key (date : string) (r : result) :
  clean date r = true →
  well_formed (line_body date r) = true ∧ identity_key (line_body date r) = url r.
Proof.
  intros H. unfold well_formed, identity_key. by rewrite (line_body_fields date r H).
Qed.

Lemma leading_lines_ledger_text (entries : list (string * result)) :
  Forall (λ e, clean e.1 e.2 = true) entries →
  leading_well_formed (stripped_lines (ledger_text entries))
  = map (λ e, line_body e.1 e.2) entries.
Proof.
  intros Hclean. rewrite stripped_lines_ledger_text by done. apply leading_well_formed_all.
  apply Forall_fmap. eapply Forall_impl; [exact Hclean|].
  intros [date r] H. by apply line_body_key.
Qed.

(** X10: round trip of writer and loader: from a ledger file made of the lines
    written for records whose parts hold no separator, line feed or carriage
    return, the loader gets exactly the URLs of those records. *)
Theorem loader_recovers_written_urls (d : directory) (file : string)
    (entries : list (string * result)) (x : string) :
  d !! file = Some (RegularFile (Some (ledger_text entries))) →
  Forall (λ e, clean e.1 e.2 = true) entries →
  x ∈ urls_crawled_in_file d file ↔ x ∈ urls_of entries.
Proof.
  intros Hfile Hclean. rewrite urls_crawled_in_file_spec. unfold urls_of.
  pose proof (leading_lines_ledger_text entries Hclean) as Hlines.
  split.
  - intros (content & line & Hc & Hl & Hk). rewrite Hfile in Hc. injection Hc as <-.
    rewrite Hlines in Hl. apply list_elem_of_fmap in Hl as ([date r] & -> & Hin).
    apply list_elem_of_fmap. exists (date, r). split; [|done].
    rewrite Forall_forall in Hclean.
    destruct (line_body_key date r (Hclean (date, r) Hin)) as [_ Hkey].
    cbn [fst snd] in *. congruence.
  - intros ([date r] & -> & Hin)%list_elem_of_fmap.
    exists (ledger_text entries), (line_body date r). split; [done|]. split.
    + rewrite Hlines. apply list_elem_of_fmap. by exists (date, r).
    + rewrite Forall_forall in Hclean.
      by destruct (line_body_key date r (Hclean (date, r) Hin)) as [_ Hkey].
Qed.

Lemma loader_recovers_written_urls_witness :
  "http://a/b" ∈ urls_crawled_in_file
                   {[ Sample.out := RegularFile (Some (ledger_text [(Sample.date, Sample.record)])) ]}
                   Sample.out
  ↔ "http://a/b" ∈ urls_of [(Sample.date, Sample.record)].
Proof.
  apply (loader_recovers_written_urls _ Sample.out [(Sample.date, Sample.record)]).
  - apply lookup_singleton_eq.
  - repeat constructor.
Defined.

(** ** The run: what it writes *)

(** X11: for a record whose parts hold no separator, line feed or carriage
    return, [save_result] appends one line ended by a line feed; the line
    splits into the 8 fields, the URL 5th and the composed text 8th, and no
    other file changes. *)
Theorem save_result_appends_line (env : environment) (out old : string) (r : result)
    (w : world) :
  let date := clock env (ticks w) in
  files w !! out = Some (RegularFile (Some old)) →
  String.length (ledger_line date r) ≤ disk_free w →
  clean date r = true →
  ∃ w',
    save_result env out r w = (Done (), w')
    ∧ text_of (files w') out = old +:+ line_body date r +:+ NL
    ∧ Py.has_chr "010" (line_body date r) = false
    ∧ Py.split SEP (line_body date r)
      = ["locationLong"; "locationLat"; "spider"; date; url r; "userName"; "screenName";
         "<title>" +:+ Py.str_of (title r) +:+ "</title><body>" +:+ body r +:+ "</body>"]
    ∧ ∀ file, file ≠ out → files w' !! file = files w !! file.
Proof.
  intros date Hfile Hfree Hclean.
  destruct (save_result_writes env out old r w Hfile Hfree) as (w' & Hrun & Hfiles & _).
  exists w'. split; [done|]. fold date in Hfiles. split; [|split; [|split]].
  - unfold text_of. by rewrite Hfiles, lookup_insert_eq, ledger_line_body.
  - rewrite line_body_has_lf. pose proof Hclean as (Hd & Hu & Ht & Hb)%clean_spec.
    apply line_safe_spec in Hd as (_ & Hd & _), Hu as (_ & Hu & _),
        Ht as (_ & Ht & _), Hb as (_ & Hb & _).
    by rewrite Hd, Hu, Ht, Hb.
  - by apply line_body_fields.
  - intros file Hne. rewrite Hfiles. by apply lookup_insert_ne.
Qed.

Lemma save_result_appends_line_witness :
  ∃ w',
    save_result (Sample.env []) Sample.out Sample.record
      (boot {[ Sample.out := RegularFile (Some "") ]} 1000) = (Done (), w')
    ∧ text_of (files w') Sample.out = "" +:+ line_body Sample.date Sample.record +:+ NL
    ∧ Py.has_chr "010" (line_body Sample.date Sample.record) = false
    ∧ Py.split SEP (line_body Sample.date Sample.record)
      = ["locationLong"; "locationLat"; "spider"; Sample.date; "http://a/b"; "userName";
         "screenName"; "<title>" +:+ "T" +:+ "</title><body>" +:+ "B" +:+ "</body>"]
    ∧ ∀ file, file ≠ Sample.out
              → files w' !! file
                = ({[ Sample.out := RegularFile (Some "") ]} : directory) !! file.
Proof.
  destruct (save_result_appends_line (Sample.env []) Sample.out "" Sample.record
              (boot {[ Sample.out := RegularFile (Some "") ]} 1000))
    as (w' & H1 & H2 & H3 & H4 & H5).
  - apply lookup_singleton_eq.
  - vm_compute. lia.
  - reflexivity.
  - exists w'. split; [exact H1|]. split; [exact H2|]. split; [exact H3|].
    split; [exact H4|exact H5].
Defined.

Lemma save_result_cases (env : environment) (out old : string) (r : result) (w : world) :
  files w !! out = Some (RegularFile (Some old)) →
  let line := ledger_line (clock env (ticks w)) r in
  let end_ := save_result env out r w in
  locked end_.2 = locked w
  ∧ ((end_.1 = Done ()
      ∧ files end_.2 = <[out := RegularFile (Some (old +:+ line))]> (files w)
      ∧ trace end_.2 = trace w ++ [EvWrite line])
     ∨ (end_.1 = Raised OSError ∧ files end_.2 = files w ∧ trace end_.2 = trace w)).
Proof.
  intros Hfile. cbv zeta.
  unfold save_result, current_date_for_timestamp, mbind, M_bind, write.
  generalize (ledger_line (clock env (ticks w)) r). intros line. simpl. rewrite Hfile.
  destruct (_ <? _); simpl; [by split; [|right]|]. split; [done|]. by left.
Qed.

Lemma ledger_text_app (e1 e2 : list (string * result)) :
  ledger_text (e1 ++ e2) = ledger_text e1 +:+ ledger_text e2.
Proof.
  induction e1 as [|e e1 IH]; [done|].
  cbn [app ledger_text foldr]. fold (ledger_text (e1 ++ e2)). fold (ledger_text e1).
  by rewrite IH, app_assoc_str.
Qed.

Lemma extends_nothing (env : environment) (out : string) (urls_crawled : gset string)
    (w w' : world) :
  is_open w out →
  trace w' = trace w → files w' = files w → locked w' = locked w →
  extends env out urls_crawled w w' [].
Proof.
  intros [old Hold] Ht Hf Hl. unfold extends. simpl. rewrite app_nil_r.
  split; [done|]. split; [|split; [done|split; [constructor|constructor]]].
  rewrite Hf. unfold text_of. rewrite Hold, app_empty_r. symmetry. by apply insert_id.
Qed.

Lemma extends_open (env : environment) (out : string) (urls_crawled : gset string)
    (w w' : world) (entries : list (string * result)) :
  extends env out urls_crawled w w' entries → is_open w' out.
Proof. intros (_ & Hf & _). eexists. rewrite Hf. apply lookup_insert_eq. Qed.

Lemma extends_weaken (env : environment) (out : string) (c c' : gset string)
    (w w' : world) (entries : list (string * result)) :
  c ⊆ c' → extends env out c' w w' entries → extends env out c w w' entries.
Proof.
  intros Hsub (Ht & Hf & Hl & Hn & Ha). repeat split; try done.
  eapply Forall_impl; [exact Ha|]. intros e [Hnot Hrest]. split; [|done]. intros Hc. by apply Hnot, Hsub.
Qed.

Lemma extends_compose (env : environment) (out : string) (c c1 : gset string)
    (w w1 w2 : world) (e1 e2 : list (string * result)) :
  extends env out c w w1 e1 →
  extends env out c1 w1 w2 e2 →
  c ⊆ c1 →
  Forall (λ e, url e.2 ∈ c1) e1 →
  extends env out c w w2 (e1 ++ e2).
Proof.
  intros (Ht1 & Hf1 & Hl1 & Hn1 & Ha1) (Ht2 & Hf2 & Hl2 & Hn2 & Ha2) Hsub Hin.
  unfold extends. split; [|split; [|split; [|split]]].
  - by rewrite Ht2, Ht1, map_app, app_assoc.
  - rewrite Hf2, Hf1. unfold text_of at 1. rewrite lookup_insert_eq.
    by rewrite insert_insert_eq, ledger_text_app, app_assoc_str.
  - congruence.
  - unfold urls_of. rewrite map_app. apply NoDup_app. split; [done|]. split; [|done].
    intros x (e & -> & He)%list_elem_of_fmap (e' & Hx & He')%list_elem_of_fmap.
    rewrite Forall_forall in Hin, Ha2.
    destruct (Ha2 e' He') as (Hnot & _). apply Hnot. rewrite <- Hx. by apply Hin.
  - apply Forall_app. split; [done|].
    eapply Forall_impl; [exact Ha2|]. intros e [Hnot Hrest]. split; [|done]. intros Hc. by apply Hnot, Hsub.
Qed.

Lemma link_loop_extends (env : environment) (out : string) (links : list string)
    (urls_crawled : gset string) (w : world) :
  is_open w out →
  ∃ entries,
    extends env out urls_crawled w (link_loop env out links urls_crawled w).2 entries
    ∧ match (link_loop env out links urls_crawled w).1 with
      | Done crawled' => urls_crawled ⊆ crawled' ∧ Forall (λ e, url (e.2) ∈ crawled') entries
      | Raised _ => True
      | Hang => False
      end.
Proof.
  revert urls_crawled w. induction links as [|link rest IH]; intros urls_crawled w Hopen.
  - exists []. split; [by apply extends_nothing|]. simpl. by split; [|constructor].
  - cbn [link_loop]. destruct (bool_decide (link ∈ urls_crawled)) eqn:Ein; [by apply IH|].
    apply bool_decide_eq_false in Ein. unfold mbind, M_bind.
    destruct (crawl (pages env) link) as [r|] eqn:Ecrawl.
    + destruct Hopen as [old Hold].
      pose proof (save_result_cases env out old r w Hold) as Hsave. cbv zeta in Hsave.
      destruct (save_result env out r w) as [[[]|e|] w1];
        cbn [fst snd] in Hsave; destruct Hsave as (Hl & [(Ho & Hf & Ht)|(Ho & Hf & Ht)]);
        try discriminate Ho.
      * assert (Hurl : url r = link).
        { apply crawl_some in Ecrawl as (? & ? & ? & _ & _ & _ & ->). done. }
        assert (Hstep : extends env out urls_crawled w w1 [(clock env (ticks w), r)]).
        { unfold extends. cbn [map fst snd ledger_text foldr urls_of].
          split; [done|]. split; [|split; [done|split]].
          - rewrite Hf. unfold text_of. by rewrite Hold, app_empty_r.
          - apply NoDup_singleton.
          - constructor; [|constructor]. cbn [fst snd]. rewrite Hurl.
            split; [done|]. split; [done|]. by eexists. }
        destruct (IH (urls_crawled ∪ {[link]}) w1 (extends_open _ _ _ _ _ _ Hstep))
          as (entries & Hext & Hend).
        exists ((clock env (ticks w), r) :: entries). split.
        -- apply (extends_compose env out urls_crawled (urls_crawled ∪ {[link]}) w w1 _
                    [(clock env (ticks w), r)] entries); [done|done|set_solver|].
           constructor; [|constructor]. cbn [snd]. rewrite Hurl. set_solver.
        -- destruct (link_loop env out rest (urls_crawled ∪ {[link]}) w1).1 as [crawled'| |];
             [|done..]. destruct Hend as [Hsub Hall]. split; [set_solver|].
           constructor; [|done]. cbn [snd]. rewrite Hurl. set_solver.
      * exists []. split; [|done].
        apply extends_nothing; [by exists old|done..].
    + simpl. destruct (IH (urls_crawled ∪ {[link]}) w Hopen) as (entries & Hext & Hend).
      exists entries. split; [eapply extends_weaken; [|exact Hext]; set_solver|].
      destruct (link_loop env out rest (urls_crawled ∪ {[link]}) w).1 as [crawled'| |];
        [|done..]. destruct Hend as [Hsub Hall]. split; [set_solver|done].
Qed.

Lemma seed_loop_extends (env : environment) (out : string) (filter_list seeds : list string)
    (urls_crawled : gset string) (w : world) :
  is_open w out →
  ∃ entries,
    extends env out urls_crawled w (seed_loop env out filter_list seeds urls_crawled w).2 entries
    ∧ match (seed_loop env out filter_list seeds urls_crawled w).1 with
      | Done crawled' => urls_crawled ⊆ crawled' ∧ Forall (λ e, url (e.2) ∈ crawled') entries
      | Raised _ => True
      | Hang => False
      end.
Proof.
  revert urls_crawled w. induction seeds as [|seed rest IH]; intros urls_crawled w Hopen.
  - exists []. split; [by apply extends_nothing|]. simpl. by split; [|constructor].
  - cbn [seed_loop]. destruct (bool_decide (seed ∈ urls_crawled)); [by apply IH|].
    unfold mbind, M_bind.
    destruct (link_loop_extends env out
                (get_links (re_beyond env) (pages env) seed filter_list) urls_crawled w Hopen)
      as (e1 & Hext1 & Hend1).
    destruct (link_loop env out _ urls_crawled w) as [[crawled1|e|] w1]; cbn [fst snd] in *.
    + destruct Hend1 as [Hsub1 Hall1].
      destruct (IH crawled1 w1 (extends_open _ _ _ _ _ _ Hext1)) as (e2 & Hext2 & Hend2).
      exists (e1 ++ e2). split; [by eapply extends_compose|].
      destruct (seed_loop env out filter_list rest crawled1 w1).1 as [crawled'| |]; [|done..].
      destruct Hend2 as [Hsub2 Hall2]. split; [set_solver|].
      apply Forall_app. split; [|done].
      eapply Forall_impl; [exact Hall1|]. intros e He. set_solver.
    + by exists e1.
    + done.
Qed.

Lemma writes_app (a b : list event) : writes (a ++ b) = writes a ++ writes b.
Proof. induction a as [|[] a IH]; simpl; by rewrite ?IH. Qed.

Lemma writes_lines (entries : list (string * result)) :
  writes (map (λ e, EvWrite (ledger_line e.1 e.2)) entries) = lines_of entries.
Proof. induction entries as [|e entries IH]; [done|]. simpl. by rewrite IH. Qed.


Lemma text_of_insert_id (w : world) (out : string) :
  is_open w out →
  <[out := RegularFile (Some (text_of (files w) out +:+ ""))]> (files w) = files w.
Proof.
  intros [old Hold]. unfold text_of. rewrite Hold, app_empty_r. by apply insert_id.
Qed.

Lemma wait_and_lock_file_frame (replies : list flock_reply) (w : world) :
  files (wait_and_lock_file replies w).2 = files w
  ∧ writes (trace (wait_and_lock_file replies w).2) = writes (trace w).
Proof.
  revert w. induction replies as [|[] later IH]; intros w; simpl; [done| | |done].
  - by rewrite writes_app, app_nil_r.
  - unfold mbind, M_bind. simpl.
    match goal with |- context [wait_and_lock_file later ?w'] => specialize (IH w') end.
    destruct IH as [Hf Ht].
    destruct (wait_and_lock_file later _) as [[[]|e|] w']; cbn [fst snd] in *;
      rewrite Hf, Ht; simpl; by rewrite writes_app, app_nil_r.
Qed.

(** The stretch of [main] inside [with open]: waiting for the lock, the loop
    over the seeds, and the unlocking. *)
Lemma locked_stretch_ledger (env : environment) (out : string) (filter_list seeds : list string)
    (urls_crawled : gset string) (w : world) :
  is_open w out →
  ∃ entries,
    writes (trace ((wait_and_lock_file (flock_replies env) ;;
                    seed_loop env out filter_list seeds urls_crawled ;;
                    unlock_file) w).2)
    = writes (trace w) ++ lines_of entries
    ∧ files ((wait_and_lock_file (flock_replies env) ;;
              seed_loop env out filter_list seeds urls_crawled ;;
              unlock_file) w).2
      = <[out := RegularFile (Some (text_of (files w) out +:+ ledger_text entries))]> (files w)
    ∧ NoDup (urls_of entries)
    ∧ Forall (λ e, (url (e.2) ∉ urls_crawled)
                   ∧ crawl (pages env) (url (e.2)) = Some (e.2)
                   ∧ ∃ n, e.1 = clock env n) entries.
Proof.
  intros Hopen. unfold mbind, M_bind.
  destruct (wait_and_lock_file_frame (flock_replies env) w) as [Hf Ht].
  destruct (wait_and_lock_file (flock_replies env) w) as [[[]|e|] w1]; cbn [fst snd] in *.
  - assert (Hopen1 : is_open w1 out) by (destruct Hopen as [old Hold]; exists old; by rewrite Hf).
    destruct (seed_loop_extends env out filter_list seeds urls_crawled w1 Hopen1)
      as (entries & (Htr & Hfi & _ & Hn & Ha) & Hend).
    exists entries.
    destruct (seed_loop env out filter_list seeds urls_crawled w1) as [[crawled'|e|] w2];
      cbn [fst snd] in *; [| |done].
    + simpl. rewrite writes_app, app_nil_r, Htr, writes_app, writes_lines, Ht, Hfi, Hf. done.
    + rewrite Htr, writes_app, writes_lines, Ht, Hfi, Hf. done.
  - exists []. cbn [ledger_text foldr lines_of map].
    rewrite Ht, Hf, app_nil_r, (text_of_insert_id w out Hopen). repeat split; constructor.
  - exists []. cbn [ledger_text foldr lines_of map].
    rewrite Ht, Hf, app_nil_r, (text_of_insert_id w out Hopen). repeat split; constructor.
Qed.

(** [with open(file_path, "a")]: either the name cannot be opened, and
    nothing is done, or the body runs on the opened file, and the file is
    closed when the body ends or raises; closing it neither writes nor
    changes a file. *)
Lemma with_open_cases {A} (out : string) (body : M A) (w : world) :
  (openable (files w) out = false ∧ with_open out body w = (Raised OSError, w))
  ∨ (openable (files w) out = true
     ∧ ∃ w1, is_open w1 out
             ∧ files w1 = <[out := RegularFile (Some (text_of (files w) out))]> (files w)
             ∧ trace w1 = trace w ++ [EvOpen]
             ∧ (with_open out body w).1 = (body w1).1
             ∧ files (with_open out body w).2 = files (body w1).2
             ∧ trace (with_open out body w).2
               = trace (body w1).2 ++ match (body w1).1 with Hang => [] | _ => [EvClose] end).
Proof.
  unfold with_open, open_append, openable, text_of.
  destruct (files w !! out) as [[[c|]|]|] eqn:Hout; [|by left..|].
  - right. split; [done|]. cbn [log].
    match goal with |- context [body ?w1] => exists w1 end. cbn [files trace].
    split; [by exists c|]. split; [symmetry; by apply insert_id|]. split; [done|].
    destruct (body _) as [[a|e|] w2]; cbn [fst snd]; simpl; by rewrite ?app_nil_r.
  - right. split; [done|]. cbn [log].
    match goal with |- context [body ?w1] => exists w1 end. cbn [files trace].
    split; [exists ""; apply lookup_insert_eq|]. split; [done|]. split; [done|].
    destruct (body _) as [[a|e|] w2]; cbn [fst snd]; simpl; by rewrite ?app_nil_r.
Qed.

(** What a run leaves, from any world: the lines of some records written
    to the output file, no URL twice, each the result of crawling a URL that
    the ledger directory did not give at the start. *)
Lemma crawl_run_ledger (env : environment) (out : string) (filter_list seeds : list string)
    (w : world) :
  ∃ entries,
    writes (trace (crawl_run env out filter_list seeds w).2) = writes (trace w) ++ lines_of entries
    ∧ files (crawl_run env out filter_list seeds w).2
      = (if openable (files w) out
         then <[out := RegularFile (Some (text_of (files w) out +:+ ledger_text entries))]>
                (files w)
         else files w)
    ∧ (openable (files w) out = false → entries = [])
    ∧ NoDup (urls_of entries)
    ∧ Forall (λ e, (url (e.2) ∉ urls_crawled_in_dir (files w))
                   ∧ crawl (pages env) (url (e.2)) = Some (e.2)
                   ∧ ∃ n, e.1 = clock env n) entries.
Proof.
  unfold crawl_run. cbv beta zeta.
  match goal with |- context [with_open out ?b w] => set (body := b) end.
  destruct (with_open_cases out body w)
    as [[Hno Hrun]|(Hyes & w1 & Hopen & Hfiles & Htrace & _ & Hf & Hw)].
  - exists []. rewrite Hno, Hrun. cbn [fst snd lines_of map]. rewrite app_nil_r.
    repeat split; constructor.
  - destruct (locked_stretch_ledger env out filter_list seeds
                (urls_crawled_in_dir (files w)) w1 Hopen) as (entries & H1 & H2 & H3 & H4).
    exists entries. rewrite Hyes, Hw, Hf, writes_app. subst body.
    rewrite H1, H2, Htrace, Hfiles, writes_app.
    split; [by destruct (_.1); cbn [writes]; rewrite !app_nil_r|].
    split; [|split; [done|by split]].
    unfold text_of at 1. by rewrite lookup_insert_eq, insert_insert_eq.
Qed.

(** X12: whatever happens during a run, each text it writes is the line of a
    record; no two of them are for the same URL; each URL was not among those
    the ledger directory gave when the run began, and the record is what
    [crawl] returns for it, dated by a reading of the clock. *)
Theorem run_writes_each_new_url_once (env : environment) (out : string)
    (filter_list seeds : list string) (d : directory) (free : nat) :
  ∃ entries,
    writes (trace (crawl_run env out filter_list seeds (boot d free)).2) = lines_of entries
    ∧ NoDup (urls_of entries)
    ∧ Forall (λ e, (url (e.2) ∉ urls_crawled_in_dir d)
                   ∧ crawl (pages env) (url (e.2)) = Some (e.2)
                   ∧ ∃ n, e.1 = clock env n) entries.
Proof.
  destruct (crawl_run_ledger env out filter_list seeds (boot d free))
    as (entries & H1 & _ & _ & H3 & H4).
  exists entries. by rewrite H1.
Qed.


(** X14: [wait_and_lock_file] sleeps once for every busy answer and then takes
    the lock; an answer that is another error is raised after the sleeps, with
    the lock as it was; neither looks at what would be answered later.  As
    long as the answers are busy it does not return. *)
Theorem wait_and_lock_file_after_busy (n : nat) (later : list flock_reply) (w : world) :
  wait_and_lock_file (replicate n Busy ++ Granted :: later) w
  = (Done (), {| files := files w; locked := true; disk_free := disk_free w;
                 ticks := ticks w; trace := trace w ++ replicate n EvSleep ++ [EvLock] |})
  ∧ wait_and_lock_file (replicate n Busy ++ Failed :: later) w
    = (Raised OSError, {| files := files w; locked := locked w; disk_free := disk_free w;
                          ticks := ticks w; trace := trace w ++ replicate n EvSleep |})
  ∧ (wait_and_lock_file (replicate n Busy) w).1 = Hang.
Proof.
  revert w. induction n as [|n IH]; intros w.
  - simpl. rewrite app_nil_r. by destruct w.
  - cbn [replicate app wait_and_lock_file]. unfold mbind, M_bind. cbn [log].
    match goal with |- context [wait_and_lock_file _ ?w'] => destruct (IH w') as (-> & -> & H) end.
    cbn [files locked disk_free ticks trace]. rewrite <- !app_assoc. cbn [app].
    split; [done|]. split; [done|].
    by destruct (wait_and_lock_file (replicate n Busy) _) as [[[]|e|] w'].
Qed.

(** X15: a seed that is among the crawled URLs is passed over: when every seed
    is, the loop ends with the set as it was and has done nothing. *)
Theorem seed_loop_skips_crawled_seeds (env : environment) (out : string)
    (filter_list seeds : list string) (urls_crawled : gset string) (w : world) :
  Forall (λ seed, seed ∈ urls_crawled) seeds →
  seed_loop env out filter_list seeds urls_crawled w = (Done urls_crawled, w).
Proof.
  induction 1 as [|seed seeds Hin _ IH]; [done|].
  cbn [seed_loop]. by rewrite (bool_decide_eq_true_2 _ Hin).
Qed.

Lemma seed_loop_skips_crawled_seeds_witness :
  seed_loop (Sample.env [Granted]) Sample.out [] [Sample.seed] {[ Sample.seed ]}
    (boot ∅ 1000)
  = (Done {[ Sample.seed ]}, boot ∅ 1000).
Proof.
  apply seed_loop_skips_crawled_seeds. constructor; [|constructor]. set_solver.
Defined.

(** ** The run: the order of its system calls *)




(** ** Two runs *)




